(** * Lib-quantum: the IQ# kernel client, the XYZ geometry reader and the
      OpenMolcas input deck

    A shallow embedding of

    - [src/Interoperability/python/src/qsharp/clients/iqsharp.py]
      ([IQSharpError], [IQSharpClient.execute] and the commands built on it),
    - [src/Python/qdk-chemistry/qdk_chemistry/geometry/geometry.py]
      ([Element], [Geometry], the two regular expressions and [from_xyz]),
    - [src/Python/qdk-chemistry/qdk_chemistry/solvers/util.py] and
      [.../solvers/openmolcas.py] ([formatted_geometry_str],
      [create_input_deck]),

    followed by the properties of the specification that concern them.

    Python text is a [string] whose characters are the code points below
    256; the character classes of the regular expressions and [str.upper]
    are those of Python on these code points.  A raised exception is a
    value of [Exception]; a failed [assert] raises [AssertionError]. *)

From Stdlib Require Import Ascii String ZArith Lia.
From stdpp Require Import base strings gmap list pretty.

#[global] Arguments String.append !_ _ / : simpl nomatch.

(** * Exceptions *)

Inductive Exception : Type :=
| IQSharpError (iqsharp_errors : list string)
| AssertionError
| AttributeError
| NameError (name : string)
| ValueError
| KeyError (key : string)
| JSONDecodeError (doc : string).

Inductive Outcome (A : Type) : Type :=
| Return (a : A)
| Raise (e : Exception).
Arguments Return {A} a.
Arguments Raise {A} e.

#[global] Instance Outcome_ret : MRet Outcome := fun A a => Return a.

#[global] Instance Outcome_bind : MBind Outcome := fun A B f m =>
  match m with
  | Return a => f a
  | Raise e => Raise e
  end.

(** * Text helpers *)

Definition LF : ascii := ascii_of_nat 10.
Definition newline : string := String LF "".

(** [prefix ++ ...] test, as [str.startswith]. *)
Fixpoint startswith (s prefix : string) : bool :=
  match prefix, s with
  | "", _ => true
  | String a prefix', String b s' => Ascii.eqb a b && startswith s' prefix'
  | String _ _, "" => false
  end.

(** [needle in hay] on Python strings. *)
Fixpoint contains (needle hay : string) : bool :=
  startswith hay needle ||
  match hay with
  | "" => false
  | String _ hay' => contains needle hay'
  end.

(** [s.split("\n")]: the lines of [s]; [cur] is the line being read. *)
Fixpoint split_lines_from (cur s : string) : list string :=
  match s with
  | "" => [cur]
  | String c s' =>
      if Ascii.eqb c LF then cur :: split_lines_from "" s'
      else split_lines_from (cur +:+ String c "") s'
  end.

Definition split_lines (s : string) : list string := split_lines_from "" s.

(** [StringIO.writelines]: the items are written one after the other; no
    separator is added. *)
Definition writelines (buffer : string) (lines : list string) : string :=
  foldl String.app buffer lines.

(** The captured texts [captured] lie on pairwise different lines of
    [lines], in their order: each one is searched for after the line that
    holds the one before it. *)
Fixpoint on_own_lines (captured lines : list string) : bool :=
  match captured, lines with
  | [], _ => true
  | _ :: _, [] => false
  | e :: captured', l :: lines' =>
      if contains e l then on_own_lines captured' lines'
      else on_own_lines captured lines'
  end.

(** A text without a line feed. *)
Fixpoint one_line (s : string) : bool :=
  match s with
  | "" => true
  | String c s' => negb (Ascii.eqb c LF) && one_line s'
  end.

(** Appending strings. *)
Lemma str_app_nil_r (s : string) : s +:+ "" = s.
Proof. induction s as [|c s IH]; simpl; [done | by rewrite IH]. Qed.

Lemma str_app_assoc (s1 s2 s3 : string) :
  (s1 +:+ s2) +:+ s3 = s1 +:+ (s2 +:+ s3).
Proof. induction s1 as [|c s1 IH]; simpl; [done | by rewrite IH]. Qed.

Lemma str_app_length (s1 s2 : string) :
  String.length (s1 +:+ s2) = String.length s1 + String.length s2.
Proof. induction s1 as [|c s1 IH]; simpl; [done | by rewrite IH]. Qed.

Lemma concat_nosep_cons (x : string) (xs : list string) :
  String.concat "" (x :: xs) = x +:+ String.concat "" xs.
Proof. destruct xs; simpl; [by rewrite str_app_nil_r | done]. Qed.

(** * The kernel client (iqsharp.py) *)

Module IQSharp.

(** [IQSharpError.__init__]: the text handed to [RuntimeError]. *)
Definition error_banner : string :=
  "The Q# kernel raised the following errors:" +:+ newline.

Definition IQSharpError_message (iqsharp_errors : list string) : string :=
  let error_msg := "" in
  let error_msg := error_msg +:+ error_banner in
  writelines error_msg (map (fun msg => "    " +:+ msg) iqsharp_errors).

(** ** The message of [IQSharpError] *)

Lemma foldl_app_concat (lines : list string) (buffer : string) :
  foldl String.app buffer lines = buffer +:+ String.concat "" lines.
Proof.
  revert buffer. induction lines as [|l lines IH]; intros buffer; simpl.
  - by rewrite str_app_nil_r.
  - rewrite IH. destruct lines as [|l' lines].
    + simpl. by rewrite !str_app_nil_r.
    + by rewrite str_app_assoc.
Qed.

Lemma message_concat (iqsharp_errors : list string) :
  IQSharpError_message iqsharp_errors
  = error_banner +:+
    String.concat "" (map (fun msg => "    " +:+ msg) iqsharp_errors).
Proof. unfold IQSharpError_message, writelines. apply foldl_app_concat. Qed.

Lemma split_lines_from_line (l cur rest : string) :
  one_line l = true →
  split_lines_from cur (l +:+ newline +:+ rest)
  = (cur +:+ l) :: split_lines_from "" rest.
Proof.
  revert cur. induction l as [|c l IH]; intros cur Hl; simpl.
  - by rewrite str_app_nil_r.
  - simpl in Hl. apply andb_prop in Hl as [Hc Hl].
    destruct (Ascii.eqb c LF); [done|].
    rewrite (IH _ Hl). by rewrite str_app_assoc.
Qed.

Lemma split_lines_indented (ls : list string) :
  forallb one_line ls = true →
  split_lines_from ""
    (String.concat "" (map (fun msg => "    " +:+ msg)
                           (map (fun l => l +:+ newline) ls)))
  = map (String.append "    ") ls ++ [""].
Proof.
  induction ls as [|l ls IH]; intros Hls; [done|].
  simpl in Hls. apply andb_prop in Hls as [Hl Hls].
  rewrite !map_cons, concat_nosep_cons.
  change ("    " +:+ (l +:+ newline)) with (("    " +:+ l) +:+ newline).
  rewrite str_app_assoc.
  rewrite (split_lines_from_line ("    " +:+ l) "" _) by exact Hl.
  by rewrite (IH Hls).
Qed.

(** The content of an [execute_result] message: a MIME bundle. *)
Record ResultContent : Type := {
  data : gmap string string;
  metadata : gmap string string
}.

(** A message handed to the output hook.  The constructor is the
    ['msg_type']; a [stream] message carries ['name'] and ['text']. *)
Inductive Msg : Type :=
| stream (name text : string)
| execute_result (content : ResultContent)
| other (msg_type : string).

Definition msg_type (msg : Msg) : string :=
  match msg with
  | stream _ _ => "stream"
  | execute_result _ => "execute_result"
  | other t => t
  end.

(** ** Names visible from a method body

    [get_packages] passes the name [False1]; a name is looked up among the
    locals, the module globals and the builtins, and raises [NameError]
    when it is bound nowhere. *)

Inductive Binding : Type :=
| BNone
| BBool (b : bool)
| BObject.

Definition truthy (v : Binding) : bool :=
  match v with
  | BNone => false
  | BBool b => b
  | BObject => true
  end.

Definition module_globals : list (string * Binding) :=
  map (fun n => (n, BObject))
    ["subprocess"; "time"; "http"; "atexit"; "json"; "sys"; "urllib"; "os";
     "jupyter_client"; "StringIO"; "defaultdict"; "List"; "Dict"; "Callable";
     "Any"; "Path"; "log_messages"; "map_tuples"; "unmap_tuples"; "logging";
     "logger"; "IQSharpError"; "IQSharpClient"].

Definition builtins : list (string * Binding) :=
  [("True", BBool true); ("False", BBool false); ("None", BNone)] ++
  map (fun n => (n, BObject))
    ["abs"; "all"; "any"; "ascii"; "bin"; "bool"; "bytearray"; "bytes";
     "callable"; "chr"; "classmethod"; "compile"; "complex"; "delattr";
     "dict"; "dir"; "divmod"; "enumerate"; "eval"; "exec"; "filter"; "float";
     "format"; "frozenset"; "getattr"; "globals"; "hasattr"; "hash"; "help";
     "hex"; "id"; "input"; "int"; "isinstance"; "issubclass"; "iter"; "len";
     "list"; "locals"; "map"; "max"; "memoryview"; "min"; "next"; "object";
     "oct"; "open"; "ord"; "pow"; "print"; "property"; "range"; "repr";
     "reversed"; "round"; "set"; "setattr"; "slice"; "sorted";
     "staticmethod"; "str"; "sum"; "super"; "tuple"; "type"; "vars"; "zip";
     "Exception"; "RuntimeError"; "AssertionError"; "NameError";
     "Ellipsis"; "NotImplemented"].

Fixpoint assoc (n : string) (env : list (string * Binding)) : option Binding :=
  match env with
  | [] => None
  | (k, v) :: env' => if String.eqb k n then Some v else assoc n env'
  end.

Definition load_name (locals : list (string * Binding)) (n : string)
  : Outcome Binding :=
  match assoc n (locals ++ module_globals ++ builtins) with
  | Some v => Return v
  | None => Raise (NameError n)
  end.

Section Client.

(** The collaborators: the kernel client of [jupyter_client] and the two
    decoders.  [execute_interactive kc input] hands the returned messages,
    in order, to the output hook and leaves the kernel client in the
    returned state.  [json_loads] is [None] where [json.loads] raises;
    [unmap_tuples] is [qsharp.serialization.unmap_tuples]. *)
Context {KernelClient JSON : Type}.
Variable execute_interactive : KernelClient → string → list Msg * KernelClient.
Variable json_loads : string → option JSON.
Variable unmap_tuples : JSON → JSON.

(** What [execute] returns: [None], a decoded object, or the pair
    [(obj, content)]. *)
Inductive PyValue : Type :=
| PyNone
| PyObj (obj : JSON)
| PyPair (obj : PyValue) (content : ResultContent).

(** The client with the effects of its calls: [sent] are the commands
    transmitted so far, [shown] the messages passed to
    [_output_hook_default]. *)
Record Client : Type := {
  kernel_client : option KernelClient;
  sent : list string;
  shown : list Msg
}.

(** The two lists that [output_hook] closes over, and the messages it
    forwards. *)
Record Hooked : Type := {
  results : list ResultContent;
  errors : list string;
  forwarded : list Msg
}.

Definition hooked_init : Hooked :=
  {| results := []; errors := []; forwarded := [] |}.

Definition output_hook (raise_on_stderr : bool) (h : Hooked) (msg : Msg) : Hooked :=
  match msg with
  | execute_result content =>
      {| results := results h ++ [content]; errors := errors h;
         forwarded := forwarded h |}
  | stream name text =>
      if raise_on_stderr && String.eqb name "stderr" then
        {| results := results h; errors := errors h ++ [text];
           forwarded := forwarded h |}
      else
        {| results := results h; errors := errors h;
           forwarded := forwarded h ++ [msg] |}
  | other _ =>
      {| results := results h; errors := errors h;
         forwarded := forwarded h ++ [msg] |}
  end.

(** The part of [execute] after [execute_interactive] has returned. *)
Definition execute_reply (return_full_result : bool) (h : Hooked)
  : Outcome PyValue :=
  match errors h with
  | _ :: _ => Raise (IQSharpError (errors h))
  | [] =>
      match results h with
      | [] => Return PyNone
      | first :: _ =>
          if Nat.eqb (length (results h)) 1 then
            obj ← match data first !! "application/json" with
                  | Some text =>
                      match json_loads text with
                      | Some j => Return (PyObj (unmap_tuples j))
                      | None => Raise (JSONDecodeError text)
                      end
                  | None => Return PyNone
                  end;
            Return (if return_full_result then PyPair obj first else obj)
          else Raise AssertionError
      end
  end.

Definition execute (self : Client) (input : string)
    (return_full_result raise_on_stderr : bool) : Outcome PyValue * Client :=
  match kernel_client self with
  | None => (Raise AttributeError, self)
  | Some kc =>
      let '(msgs, kc') := execute_interactive kc input in
      let h := foldl (output_hook raise_on_stderr) hooked_init msgs in
      (execute_reply return_full_result h,
       {| kernel_client := Some kc';
          sent := sent self ++ [input];
          shown := shown self ++ forwarded h |})
  end.

(** ** The commands built on [execute] *)

Definition compile (self : Client) (body : string) :=
  execute self body false false.

Definition get_available_operations (self : Client) :=
  execute self "%who" false false.

Definition get_workspace_operations (self : Client) :=
  execute self "%workspace" false false.

Definition reload (self : Client) :=
  execute self "%workspace reload" false true.

Definition add_package (self : Client) (name : string) :=
  execute self ("%package " +:+ name) false true.

(** [self.execute("%package", raise_on_stderr=False1)]: the argument is
    evaluated before the call. *)
Definition get_packages (self : Client) : Outcome PyValue * Client :=
  match load_name [("self", BObject)] "False1" with
  | Return v => execute self "%package" false (truthy v)
  | Raise e => (Raise e, self)
  end.

(** ** What a message list holds *)

(** The [execute_result] events, in order. *)
Fixpoint result_events (msgs : list Msg) : list ResultContent :=
  match msgs with
  | [] => []
  | execute_result c :: msgs' => c :: result_events msgs'
  | _ :: msgs' => result_events msgs'
  end.

(** The text of the error-stream events (stream messages named stderr),
    in order. *)
Fixpoint stderr_events (msgs : list Msg) : list string :=
  match msgs with
  | [] => []
  | stream name text :: msgs' =>
      if String.eqb name "stderr" then text :: stderr_events msgs'
      else stderr_events msgs'
  | _ :: msgs' => stderr_events msgs'
  end.

(** ** The output hook sorts the messages *)

Lemma hook_results rse msgs h :
  results (foldl (output_hook rse) h msgs) = results h ++ result_events msgs.
Proof.
  revert h. induction msgs as [|m msgs IH]; intros h; simpl.
  - by rewrite app_nil_r.
  - rewrite IH. destruct m as [name text|c|t]; simpl.
    + by destruct (rse && String.eqb name "stderr").
    + by rewrite <- app_assoc.
    + done.
Qed.

Lemma hook_errors_on msgs h :
  errors (foldl (output_hook true) h msgs) = errors h ++ stderr_events msgs.
Proof.
  revert h. induction msgs as [|m msgs IH]; intros h; simpl.
  - by rewrite app_nil_r.
  - rewrite IH. destruct m as [name text|c|t]; simpl; try done.
    destruct (String.eqb name "stderr"); simpl; [|done].
    by rewrite <- app_assoc.
Qed.

Lemma hook_errors_off msgs h :
  errors (foldl (output_hook false) h msgs) = errors h.
Proof.
  revert h. induction msgs as [|m msgs IH]; intros h; simpl; [done|].
  rewrite IH. by destruct m.
Qed.

Lemma hook_errors rse msgs :
  errors (foldl (output_hook rse) hooked_init msgs)
  = if rse then stderr_events msgs else [].
Proof.
  destruct rse; [apply hook_errors_on | apply hook_errors_off].
Qed.

Lemma execute_unfold self kc input rfr rse :
  kernel_client self = Some kc →
  (execute self input rfr rse).1 =
  execute_reply rfr
    (foldl (output_hook rse) hooked_init (execute_interactive kc input).1).
Proof.
  intros Hkc. unfold execute. rewrite Hkc.
  by destruct (execute_interactive kc input).
Qed.

(** The error texts that [execute] has accumulated when
    [execute_interactive] returns. *)
Definition captured_errors (raise_on_stderr : bool) (msgs : list Msg)
  : list string :=
  if raise_on_stderr then stderr_events msgs else [].

Lemma execute_reply_errors rfr h :
  errors h ≠ [] → execute_reply rfr h = Raise (IQSharpError (errors h)).
Proof. unfold execute_reply. by destruct (errors h). Qed.

(** ** [execute] with error escalation *)

(** C1, as the code has it: a call of [execute] with [raise_on_stderr]
    set that receives at least one error-stream event raises
    [IQSharpError] with the captured texts in the order received, and so
    returns no value.  The message is the banner line followed by the
    captured texts in that order, each after four spaces and with no
    separator added; when every captured text is one line ended by a line
    feed, the message has each of them on a line of its own. *)
Theorem execute_raises_on_stderr self kc input rfr :
  kernel_client self = Some kc →
  stderr_events (execute_interactive kc input).1 ≠ [] →
  let captured := stderr_events (execute_interactive kc input).1 in
  (execute self input rfr true).1 = Raise (IQSharpError captured)
  ∧ IQSharpError_message captured
    = error_banner +:+ String.concat "" (map (String.append "    ") captured)
  ∧ ∀ ls, captured = map (fun l => l +:+ newline) ls →
          forallb one_line ls = true →
          split_lines (IQSharpError_message captured)
          = "The Q# kernel raised the following errors:"
            :: map (String.append "    ") ls ++ [""].
Proof.
  intros Hkc Hne captured. split; [|split].
  - rewrite (execute_unfold _ _ _ _ _ Hkc).
    rewrite execute_reply_errors; rewrite hook_errors; done.
  - apply message_concat.
  - intros ls Hls Hone. rewrite message_concat, Hls.
    unfold split_lines, error_banner. rewrite str_app_assoc.
    rewrite (split_lines_from_line _ "" _) by done.
    by rewrite split_lines_indented.
Qed.

(** ** More than one result *)

(** C2: when two or more [execute_result] events arrive for a command and
    no error text was accumulated, the assertion of [execute] fails: the
    call raises and returns neither result. *)
Theorem execute_two_results_fail self kc input rfr rse :
  kernel_client self = Some kc →
  2 ≤ length (result_events (execute_interactive kc input).1) →
  captured_errors rse (execute_interactive kc input).1 = [] →
  (execute self input rfr rse).1 = Raise AssertionError.
Proof.
  intros Hkc Hlen Herr. rewrite (execute_unfold _ _ _ _ _ Hkc).
  unfold execute_reply. rewrite hook_errors. fold (captured_errors rse
    (execute_interactive kc input).1). rewrite Herr.
  rewrite hook_results. simpl.
  destruct (result_events (execute_interactive kc input).1) as [|c1 [|c2 cs]];
    simpl in *; [lia | lia | done].
Qed.

(** ** Exactly one result *)

(** C3, as the code has it: a call of [execute] that receives exactly one
    result event and no error-stream event raises nothing.  The object it
    decodes is [None] when the result has no ['application/json'] entry,
    and otherwise that entry decoded by [json.loads] and then by
    [unmap_tuples]; the call returns this object alone when
    [return_full_result] is off, and the pair of it and the content of the
    result event when [return_full_result] is on. *)
Theorem execute_single_result self kc input rfr rse c :
  kernel_client self = Some kc →
  result_events (execute_interactive kc input).1 = [c] →
  stderr_events (execute_interactive kc input).1 = [] →
  (data c !! "application/json" = None →
   (execute self input rfr rse).1
   = Return (if rfr then PyPair PyNone c else PyNone))
  ∧ (∀ text j,
       data c !! "application/json" = Some text → json_loads text = Some j →
       (execute self input rfr rse).1
       = Return (if rfr then PyPair (PyObj (unmap_tuples j)) c
                 else PyObj (unmap_tuples j))).
Proof.
  intros Hkc Hres Herr.
  assert (Hrun : (execute self input rfr rse).1 =
    obj ← match data c !! "application/json" with
          | Some text =>
              match json_loads text with
              | Some j => Return (PyObj (unmap_tuples j))
              | None => Raise (JSONDecodeError text)
              end
          | None => Return PyNone
          end;
    Return (if rfr then PyPair obj c else obj)).
  { rewrite (execute_unfold _ _ _ _ _ Hkc). unfold execute_reply.
    rewrite hook_errors, hook_results, Hres, Herr. simpl.
    by destruct rse. }
  split.
  - intros Hnone. rewrite Hrun, Hnone. done.
  - intros text j Hsome Hj. rewrite Hrun, Hsome, Hj. done.
Qed.

(** ** [get_packages] *)

(** C4, on the code: [get_packages] raises [NameError] for the name
    [False1] while it evaluates the arguments of the call, for every
    client; [execute] is not entered, no command is sent and the client is
    left as it was. *)
Theorem get_packages_raises_NameError self :
  get_packages self = (Raise (NameError "False1"), self)
  ∧ sent (get_packages self).2 = sent self
  ∧ ∀ v, (get_packages self).1 ≠ Return v.
Proof.
  assert (Hname : load_name [("self", BObject)] "False1"
                  = Raise (NameError "False1")) by reflexivity.
  unfold get_packages. rewrite Hname. cbn [fst snd].
  split; [reflexivity|]. split; [reflexivity|]. intros v. discriminate.
Qed.

(** The sibling [get_available_operations] does reach [execute]: its
    command is sent. *)
Lemma get_available_operations_sends self kc :
  kernel_client self = Some kc →
  sent (get_available_operations self).2 = sent self ++ ["%who"].
Proof.
  intros Hkc. unfold get_available_operations, execute. rewrite Hkc.
  by destruct (execute_interactive kc "%who").
Qed.

(** ** Where every message goes *)

Definition is_result (msg : Msg) : bool :=
  match msg with
  | execute_result _ => true
  | _ => false
  end.

(** The message is an error-stream event that [execute] keeps for its
    exception. *)
Definition is_escalated (raise_on_stderr : bool) (msg : Msg) : bool :=
  match msg with
  | stream name _ => raise_on_stderr && String.eqb name "stderr"
  | _ => false
  end.

Definition passed_on (raise_on_stderr : bool) (msg : Msg) : bool :=
  negb (is_result msg) && negb (is_escalated raise_on_stderr msg).

Lemma hook_forwarded rse msgs h :
  forwarded (foldl (output_hook rse) h msgs)
  = forwarded h ++ List.filter (passed_on rse) msgs.
Proof.
  revert h. induction msgs as [|m msgs IH]; intros h; simpl.
  - by rewrite app_nil_r.
  - rewrite IH. destruct m as [name text|c|t]; unfold passed_on; simpl.
    + destruct (rse && String.eqb name "stderr"); simpl; [done|].
      by rewrite <- app_assoc.
    + done.
    + by rewrite <- app_assoc.
Qed.

Lemma hook_partition rse msgs :
  length msgs
  = length (result_events msgs) + length (captured_errors rse msgs)
    + length (List.filter (passed_on rse) msgs).
Proof.
  unfold captured_errors, passed_on.
  induction msgs as [|m msgs IH]; [by destruct rse|].
  destruct m as [name text|c|t]; destruct rse; simpl in *;
    try destruct (String.eqb name "stderr"); simpl; lia.
Qed.

(** Every message of a command goes to exactly one place: the results,
    the captured error texts, or the default output hook; the default hook
    receives, in the order of arrival, the messages that are neither
    results nor captured error texts. *)
Theorem execute_demultiplexes self kc input rfr rse :
  kernel_client self = Some kc →
  let msgs := (execute_interactive kc input).1 in
  shown (execute self input rfr rse).2
  = shown self ++ List.filter (passed_on rse) msgs
  ∧ length msgs
    = length (result_events msgs) + length (captured_errors rse msgs)
      + length (List.filter (passed_on rse) msgs).
Proof.
  intros Hkc msgs. split; [|apply hook_partition].
  unfold execute. rewrite Hkc. subst msgs.
  destruct (execute_interactive kc input) as [msgs kc']. cbn [fst snd shown].
  by rewrite hook_forwarded.
Qed.

(** ** When [IQSharpError] is raised *)

Lemma execute_reply_IQSharpError rfr h errs :
  execute_reply rfr h = Raise (IQSharpError errs) →
  errs = errors h ∧ errs ≠ [].
Proof.
  unfold execute_reply. destruct (errors h) as [|e es] eqn:Herr.
  - destruct (results h) as [|first rest]; [done|].
    destruct (Nat.eqb _ 1); [|done].
    destruct (data first !! "application/json") as [text|]; [|done].
    by destruct (json_loads text).
  - by intros [= <-].
Qed.

(** [execute] raises [IQSharpError] only when [raise_on_stderr] is set, and
    then with the texts of the error-stream events of this command, of
    which there is at least one. *)
Theorem execute_IQSharpError_only_escalated self input rfr rse errs :
  (execute self input rfr rse).1 = Raise (IQSharpError errs) →
  rse = true ∧ errs ≠ []
  ∧ ∃ kc, kernel_client self = Some kc
          ∧ errs = stderr_events (execute_interactive kc input).1.
Proof.
  destruct (kernel_client self) as [kc|] eqn:Hkc.
  - rewrite (execute_unfold _ _ _ _ _ Hkc).
    intros [-> Hne]%execute_reply_IQSharpError.
    rewrite hook_errors in *. destruct rse; [|done].
    split; [done|]. split; [done|]. by exists kc.
  - unfold execute. rewrite Hkc. done.
Qed.

(** ** What decides the outcome *)

(** Messages that are neither results nor captured error texts (status,
    stdout, display data) never change what [execute] returns or raises:
    two commands with the same result events and the same captured error
    texts have the same outcome. *)
Theorem execute_outcome_by_results_and_errors
    self1 self2 kc1 kc2 input1 input2 rfr rse :
  kernel_client self1 = Some kc1 → kernel_client self2 = Some kc2 →
  result_events (execute_interactive kc1 input1).1
  = result_events (execute_interactive kc2 input2).1 →
  captured_errors rse (execute_interactive kc1 input1).1
  = captured_errors rse (execute_interactive kc2 input2).1 →
  (execute self1 input1 rfr rse).1 = (execute self2 input2 rfr rse).1.
Proof.
  intros H1 H2 Hres Herr.
  rewrite (execute_unfold _ _ _ _ _ H1), (execute_unfold _ _ _ _ _ H2).
  unfold execute_reply. rewrite !hook_errors, !hook_results.
  fold (captured_errors rse (execute_interactive kc1 input1).1).
  fold (captured_errors rse (execute_interactive kc2 input2).1).
  by rewrite Hres, Herr.
Qed.

(** ** No result *)

(** A command that brings no result event and no captured error text
    returns [None], also when [return_full_result] is set: no pair is
    built. *)
Theorem execute_without_result self kc input rfr rse :
  kernel_client self = Some kc →
  result_events (execute_interactive kc input).1 = [] →
  captured_errors rse (execute_interactive kc input).1 = [] →
  (execute self input rfr rse).1 = Return PyNone.
Proof.
  intros Hkc Hres Herr. rewrite (execute_unfold _ _ _ _ _ Hkc).
  unfold execute_reply. rewrite hook_errors, hook_results.
  fold (captured_errors rse (execute_interactive kc input).1).
  by rewrite Herr, Hres.
Qed.

(** ** A payload that is not JSON *)

(** When the one result of a command carries an ['application/json'] entry
    that [json.loads] refuses, [execute] raises the decoder's exception,
    with either setting of [return_full_result]. *)
Theorem execute_payload_not_json self kc input rfr rse c text :
  kernel_client self = Some kc →
  result_events (execute_interactive kc input).1 = [c] →
  captured_errors rse (execute_interactive kc input).1 = [] →
  data c !! "application/json" = Some text → json_loads text = None →
  (execute self input rfr rse).1 = Raise (JSONDecodeError text).
Proof.
  intros Hkc Hres Herr Htext Hloads. rewrite (execute_unfold _ _ _ _ _ Hkc).
  unfold execute_reply. rewrite hook_errors, hook_results.
  fold (captured_errors rse (execute_interactive kc input).1).
  rewrite Herr, Hres. simpl. by rewrite Htext, Hloads.
Qed.

(** ** [return_full_result] *)

(** Setting [return_full_result] changes the shape of the returned value
    and nothing else: the call raises the same exception, and where the
    plain call returns [obj] it returns the pair of [obj] and the content
    of the result event, or [obj] itself (which is [None]) when there was
    no result event. *)
Theorem execute_full_result_wraps self kc input rse :
  kernel_client self = Some kc →
  (execute self input true rse).1
  = match (execute self input false rse).1 with
    | Raise e => Raise e
    | Return obj =>
        match result_events (execute_interactive kc input).1 with
        | [] => Return obj
        | content :: _ => Return (PyPair obj content)
        end
    end.
Proof.
  intros Hkc. rewrite !(execute_unfold _ _ _ _ _ Hkc).
  unfold execute_reply. rewrite hook_errors, hook_results. simpl.
  destruct (if rse then _ else _) as [|e es]; [|done].
  destruct (result_events (execute_interactive kc input).1)
    as [|c [|c' cs]]; [done| |done].
  simpl. destruct (data c !! "application/json") as [text|]; [|done].
  by destruct (json_loads text).
Qed.

(** ** Which commands surface the errors of the kernel *)

(** [get_operation_metadata] *)
Definition get_operation_metadata (self : Client) (name : string) :=
  execute self ("?" +:+ name) false false.

(** [add_package] and [reload] raise [IQSharpError] as soon as the kernel
    writes to its error stream while it serves them; [compile],
    [get_operation_metadata] and [get_workspace_operations] never raise
    [IQSharpError]: what the kernel writes to its error stream while it
    serves them goes to the default output hook. *)
Theorem commands_and_kernel_errors self kc :
  kernel_client self = Some kc →
  (∀ name,
     stderr_events (execute_interactive kc ("%package " +:+ name)).1 ≠ [] →
     (add_package self name).1
     = Raise (IQSharpError
                (stderr_events
                   (execute_interactive kc ("%package " +:+ name)).1)))
  ∧ (stderr_events (execute_interactive kc "%workspace reload").1 ≠ [] →
     (reload self).1
     = Raise (IQSharpError
                (stderr_events
                   (execute_interactive kc "%workspace reload").1)))
  ∧ (∀ body errs,
       (compile self body).1 ≠ Raise (IQSharpError errs)
       ∧ (get_operation_metadata self body).1 ≠ Raise (IQSharpError errs)
       ∧ (get_workspace_operations self).1 ≠ Raise (IQSharpError errs))
  ∧ (∀ body text,
       In (stream "stderr" text) (execute_interactive kc body).1 →
       In (stream "stderr" text) (shown (compile self body).2)).
Proof.
  intros Hkc.
  assert (Hquiet : ∀ input rfr errs,
            (execute self input rfr false).1 ≠ Raise (IQSharpError errs)).
  { intros input rfr errs Hraise.
    rewrite (execute_unfold _ _ _ _ _ Hkc) in Hraise.
    apply execute_reply_IQSharpError in Hraise as [-> Hne].
    by rewrite hook_errors in Hne. }
  assert (Hloud : ∀ input rfr,
            stderr_events (execute_interactive kc input).1 ≠ [] →
            (execute self input rfr true).1
            = Raise (IQSharpError
                       (stderr_events (execute_interactive kc input).1))).
  { intros input rfr Hne. rewrite (execute_unfold _ _ _ _ _ Hkc).
    rewrite execute_reply_errors; rewrite hook_errors; done. }
  split; [|split; [|split]].
  - intros name. apply Hloud.
  - apply Hloud.
  - intros body errs. unfold compile, get_operation_metadata,
      get_workspace_operations. auto.
  - intros body text Hin. unfold compile, execute. rewrite Hkc.
    destruct (execute_interactive kc body) as [msgs kc']. cbn [fst snd shown] in *.
    rewrite hook_forwarded. apply in_or_app. right.
    apply filter_In. by split.
Qed.

End Client.

(** ** The texts in the message of [IQSharpError] *)

Lemma startswith_app (p s : string) : startswith (p +:+ s) p = true.
Proof.
  induction p as [|c p IH]; simpl; [by destruct s|].
  by rewrite Ascii.eqb_refl, IH.
Qed.

Lemma contains_here (needle rest : string) :
  contains needle (needle +:+ rest) = true.
Proof.
  pose proof (startswith_app needle rest) as Hstart.
  destruct (needle +:+ rest) as [|c hay]; cbn [contains]; by rewrite Hstart.
Qed.

Lemma contains_later (needle pre s : string) :
  contains needle s = true → contains needle (pre +:+ s) = true.
Proof.
  intros Hs. induction pre as [|c pre IH]; [done|].
  cbn [String.append contains]. rewrite IH. apply orb_true_r.
Qed.

Lemma contains_in_concat (e : string) (lines : list string) :
  In e lines → contains e (String.concat "" lines) = true.
Proof.
  induction lines as [|l lines IH]; [done|].
  rewrite concat_nosep_cons. intros [->|Hin].
  - apply contains_here.
  - by apply contains_later, IH.
Qed.

(** Every text given to [IQSharpError] occurs in its message, after four
    spaces, and the message starts with the banner line; this holds for
    the empty list too, whose message is the banner alone. *)
Theorem IQSharpError_message_holds_texts (iqsharp_errors : list string) :
  startswith (IQSharpError_message iqsharp_errors) error_banner = true
  ∧ (∀ e, In e iqsharp_errors →
          contains ("    " +:+ e) (IQSharpError_message iqsharp_errors) = true)
  ∧ (iqsharp_errors = [] → IQSharpError_message iqsharp_errors = error_banner).
Proof.
  rewrite message_concat. split; [apply startswith_app|]. split.
  - intros e He. apply contains_later, contains_in_concat.
    apply in_map_iff. by exists e.
  - by intros ->.
Qed.

(** ** A scripted transport

    A kernel client that plays back a script: each command receives the
    next batch of messages.  The decoders of the script keep the text as
    it is, and refuse the empty text. *)

Definition scripted (kc : list (list Msg)) (input : string)
  : list Msg * list (list Msg) :=
  match kc with
  | [] => ([], [])
  | batch :: kc' => (batch, kc')
  end.

Definition text_loads (text : string) : option string :=
  match text with
  | "" => None
  | _ => Some text
  end.

Definition fresh (script : list (list Msg)) : Client :=
  {| kernel_client := Some script; sent := []; shown := [] |}.

Definition json_result (text : string) : ResultContent :=
  {| data := {[ "application/json" := text ]}; metadata := ∅ |}.

Definition run (script : list (list Msg)) (input : string)
    (return_full_result raise_on_stderr : bool) : Outcome (PyValue (JSON:=string)) :=
  (execute scripted text_loads id (fresh script) input
           return_full_result raise_on_stderr).1.

(** C1 does not hold as stated: two captured texts that do not end with a
    line feed are written on one and the same line of the message. *)
Lemma execute_stderr_lines_counterexample :
  let msgs := [stream "stderr" "E1"; stream "stderr" "E2"] in
  run [msgs] "%package X" false true = Raise (IQSharpError ["E1"; "E2"])
  ∧ split_lines (IQSharpError_message ["E1"; "E2"])
    = ["The Q# kernel raised the following errors:"; "    E1    E2"]
  ∧ on_own_lines ["E1"; "E2"]
      (split_lines (IQSharpError_message ["E1"; "E2"])) = false.
Proof. vm_compute. done. Qed.

Lemma execute_raises_on_stderr_witness :
  run [[stream "stderr" ("E1" +:+ newline); other "status"]] "%package X"
      false true
  = Raise (IQSharpError ["E1" +:+ newline]).
Proof.
  apply (execute_raises_on_stderr scripted text_loads id
           (fresh [[stream "stderr" ("E1" +:+ newline); other "status"]])
           [[stream "stderr" ("E1" +:+ newline); other "status"]]
           "%package X" false).
  - reflexivity.
  - discriminate.
Defined.

Lemma execute_two_results_fail_witness :
  run [[execute_result (json_result "1"); execute_result (json_result "2")]]
      "%who" false false
  = Raise AssertionError.
Proof.
  apply (execute_two_results_fail scripted text_loads id
           (fresh [[execute_result (json_result "1");
                    execute_result (json_result "2")]])
           [[execute_result (json_result "1");
             execute_result (json_result "2")]]
           "%who" false false).
  - reflexivity.
  - simpl. lia.
  - reflexivity.
Defined.

(** C3 does not hold as stated: with [return_full_result] on, the call
    returns the pair of the decoded object and the content, not the decoded
    object. *)
Lemma execute_full_result_counterexample :
  run [[execute_result (json_result "[1]")]] "%who" true false
  = Return (PyPair (PyObj "[1]") (json_result "[1]"))
  ∧ run [[execute_result (json_result "[1]")]] "%who" true false
    ≠ Return (PyObj "[1]").
Proof. split; [by vm_compute | vm_compute; discriminate]. Qed.

Lemma execute_single_result_witness :
  run [[other "status"; execute_result (json_result "[1]")]] "%who"
      false false
  = Return (PyObj "[1]").
Proof.
  apply (proj2 (execute_single_result scripted text_loads id
           (fresh [[other "status"; execute_result (json_result "[1]")]])
           [[other "status"; execute_result (json_result "[1]")]]
           "%who" false false (json_result "[1]")
           eq_refl eq_refl eq_refl) "[1]" "[1]").
  - reflexivity.
  - reflexivity.
Defined.

(** ** The further properties on the scripted transport *)

Definition chatter : list Msg :=
  [other "status"; stream "stdout" "compiling"; stream "stderr" "warning W1";
   execute_result (json_result "[1]"); other "status"].

Lemma execute_demultiplexes_witness :
  shown (execute scripted text_loads id (fresh [chatter]) "%who" false true).2
  = [other "status"; stream "stdout" "compiling"; other "status"].
Proof.
  apply (execute_demultiplexes scripted text_loads id (fresh [chatter])
           [chatter] "%who" false true).
  reflexivity.
Defined.

Lemma execute_IQSharpError_only_escalated_witness :
  true = true ∧ ["warning W1"] ≠ []
  ∧ ∃ kc, kernel_client (fresh [chatter]) = Some kc
          ∧ ["warning W1"] = stderr_events (scripted kc "%who").1.
Proof.
  apply (execute_IQSharpError_only_escalated scripted text_loads id
           (fresh [chatter]) "%who" false true ["warning W1"]).
  reflexivity.
Defined.

Lemma execute_outcome_by_results_and_errors_witness :
  (execute scripted text_loads id (fresh [chatter]) "%who" false false).1
  = (execute scripted text_loads id
       (fresh [[execute_result (json_result "[1]")]]) "%workspace" false
       false).1.
Proof.
  apply (execute_outcome_by_results_and_errors scripted text_loads id
           (fresh [chatter]) (fresh [[execute_result (json_result "[1]")]])
           [chatter] [[execute_result (json_result "[1]")]]);
    reflexivity.
Defined.

Lemma execute_without_result_witness :
  (execute scripted text_loads id
     (fresh [[other "status"; stream "stderr" "warning W1"]])
     "%workspace reload" true false).1
  = Return PyNone.
Proof.
  apply (execute_without_result scripted text_loads id
           (fresh [[other "status"; stream "stderr" "warning W1"]])
           [[other "status"; stream "stderr" "warning W1"]]);
    reflexivity.
Defined.

Lemma execute_payload_not_json_witness :
  (execute scripted text_loads id (fresh [[execute_result (json_result "")]])
     "%who" false false).1
  = Raise (JSONDecodeError "").
Proof.
  apply (execute_payload_not_json scripted text_loads id
           (fresh [[execute_result (json_result "")]])
           [[execute_result (json_result "")]] "%who" false false
           (json_result "") "");
    reflexivity.
Defined.

Lemma execute_full_result_wraps_witness :
  (execute scripted text_loads id (fresh [chatter]) "%who" true false).1
  = Return (PyPair (PyObj "[1]") (json_result "[1]")).
Proof.
  apply (execute_full_result_wraps scripted text_loads id (fresh [chatter])
           [chatter] "%who" false).
  reflexivity.
Defined.

Lemma commands_and_kernel_errors_witness :
  (add_package scripted text_loads id
     (fresh [[stream "stderr" "no such package"]]) "X").1
  = Raise (IQSharpError ["no such package"]).
Proof.
  apply (commands_and_kernel_errors scripted text_loads id
           (fresh [[stream "stderr" "no such package"]])
           [[stream "stderr" "no such package"]]).
  - reflexivity.
  - discriminate.
Defined.

Lemma IQSharpError_message_holds_texts_witness :
  contains "    E2" (IQSharpError_message ["E1"; "E2"]) = true.
Proof.
  apply (IQSharpError_message_holds_texts ["E1"; "E2"]).
  right. left. reflexivity.
Defined.

End IQSharp.

(** * Regular expressions (the fragment of [re] that geometry.py uses) *)

Module Re.

(** A repetition in the two patterns is always over one character class. *)
Inductive atom : Type :=
| One (p : ascii → bool)
| Opt (p : ascii → bool)
| Star (p : ascii → bool)
| Plus (p : ascii → bool).

(** A pattern is a sequence of atoms and of capturing groups of atoms. *)
Inductive item : Type :=
| Bare (a : atom)
| Group (body : list atom).

Definition regex : Type := list item.

(** The first [n] characters of [s]. *)
Fixpoint take_str (n : nat) (s : string) : string :=
  match n, s with
  | S n', String c s' => String c (take_str n' s')
  | _, _ => ""
  end.

(** The text between the start of [s] and its suffix [rest]. *)
Definition consumed (s rest : string) : string :=
  take_str (String.length s - String.length rest) s.

Section Matcher.
Context {R : Type}.

(** Greedy repetition with backtracking: one more character is tried
    first, the continuation [k] from here only when that fails. *)
Fixpoint star_k (p : ascii → bool) (s : string) (k : string → option R)
  : option R :=
  match s with
  | String c s' =>
      if p c then
        match star_k p s' k with
        | Some r => Some r
        | None => k s
        end
      else k s
  | "" => k s
  end.

Definition atom_k (a : atom) (s : string) (k : string → option R)
  : option R :=
  match a with
  | One p =>
      match s with
      | String c s' => if p c then k s' else None
      | "" => None
      end
  | Opt p =>
      match s with
      | String c s' =>
          if p c then
            match k s' with
            | Some r => Some r
            | None => k s
            end
          else k s
      | "" => k s
      end
  | Star p => star_k p s k
  | Plus p =>
      match s with
      | String c s' => if p c then star_k p s' k else None
      | "" => None
      end
  end.

Fixpoint atoms_k (body : list atom) (s : string) (k : string → option R)
  : option R :=
  match body with
  | [] => k s
  | a :: body' => atom_k a s (fun s' => atoms_k body' s' k)
  end.

(** [groups] are the texts of the groups closed so far, in order. *)
Fixpoint items_k (r : regex) (s : string) (groups : list string)
    (k : list string → string → option R) : option R :=
  match r with
  | [] => k groups s
  | Bare a :: r' => atom_k a s (fun s' => items_k r' s' groups k)
  | Group body :: r' =>
      atoms_k body s
        (fun s' => items_k r' s' (groups ++ [consumed s s']) k)
  end.

End Matcher.

(** [re.match]: the groups of the match at the start of [s], and the text
    after the match. *)
Definition re_match (r : regex) (s : string) : option (list string * string) :=
  items_k r s [] (fun groups rest => Some (groups, rest)).

(** [re.findall] for a pattern that matches no empty text: the groups of
    the matches found from left to right, each search starting where the
    match before it ended.  [skip] counts the characters of the last match
    still to pass. *)
Fixpoint findall_from (r : regex) (skip : nat) (s : string)
  : list (list string) :=
  match s with
  | "" => []
  | String c s' =>
      match skip with
      | S n => findall_from r n s'
      | 0 =>
          match re_match r s with
          | Some (groups, rest) =>
              groups
              :: findall_from r (String.length s - String.length rest - 1) s'
          | None => findall_from r 0 s'
          end
      end
  end.

Definition findall (r : regex) (s : string) : list (list string) :=
  findall_from r 0 s.

(** ** Texts and their characters *)

Fixpoint all_chars (p : ascii → bool) (s : string) : bool :=
  match s with
  | "" => true
  | String c s' => p c && all_chars p s'
  end.

(** [s] does not start with a character of [p]. *)
Definition stops (p : ascii → bool) (s : string) : bool :=
  match s with
  | "" => true
  | String c _ => negb (p c)
  end.

Fixpoint drop_while (p : ascii → bool) (s : string) : string :=
  match s with
  | "" => ""
  | String c s' => if p c then drop_while p s' else s
  end.

Definition nonempty (s : string) : bool :=
  match s with
  | "" => false
  | String _ _ => true
  end.

Lemma take_str_app (m rest : string) :
  take_str (String.length m) (m +:+ rest) = m.
Proof.
  induction m as [|c m IH]; simpl; [by destruct rest | by rewrite IH].
Qed.

Lemma consumed_app (m rest : string) : consumed (m +:+ rest) rest = m.
Proof.
  unfold consumed. rewrite str_app_length.
  replace (String.length m + String.length rest - String.length rest)
    with (String.length m) by lia.
  apply take_str_app.
Qed.

Lemma all_chars_app p (s1 s2 : string) :
  all_chars p (s1 +:+ s2) = all_chars p s1 && all_chars p s2.
Proof.
  induction s1 as [|c s1 IH]; simpl; [done|].
  by rewrite IH, andb_assoc.
Qed.

Lemma all_chars_impl (p q : ascii → bool) (s : string) :
  (∀ c, p c = true → q c = true) →
  all_chars p s = true → all_chars q s = true.
Proof.
  intros Hpq. induction s as [|c s IH]; simpl; [done|].
  intros [Hc Hs]%andb_prop. by rewrite (Hpq _ Hc), (IH Hs).
Qed.

Lemma drop_while_all p (m rest : string) :
  all_chars p m = true → stops p rest = true →
  drop_while p (m +:+ rest) = rest.
Proof.
  induction m as [|c m IH]; simpl.
  - intros _. destruct rest as [|c rest]; simpl; [done|].
    by intros ->%negb_true_iff.
  - intros [-> Hm]%andb_prop Hrest. by apply IH.
Qed.

(** ** The matcher reports only matches, and the greedy one first *)

(** The texts an atom, a group body and a pattern match; [gs] are the
    texts of the groups of the pattern. *)
Definition atom_text (a : atom) (m : string) : Prop :=
  match a with
  | One p => ∃ c, m = String c "" ∧ p c = true
  | Opt p => m = "" ∨ ∃ c, m = String c "" ∧ p c = true
  | Star p => all_chars p m = true
  | Plus p => nonempty m = true ∧ all_chars p m = true
  end.

Fixpoint body_text (body : list atom) (m : string) : Prop :=
  match body with
  | [] => m = ""
  | a :: body' =>
      ∃ m1 m2, m = m1 +:+ m2 ∧ atom_text a m1 ∧ body_text body' m2
  end.

Fixpoint regex_text (r : regex) (m : string) (gs : list string) : Prop :=
  match r with
  | [] => m = "" ∧ gs = []
  | Bare a :: r' =>
      ∃ m1 m2, m = m1 +:+ m2 ∧ atom_text a m1 ∧ regex_text r' m2 gs
  | Group body :: r' =>
      ∃ m1 m2 gs', m = m1 +:+ m2 ∧ gs = m1 :: gs'
                   ∧ body_text body m1 ∧ regex_text r' m2 gs'
  end.

Section MatcherFacts.
Context {R : Type}.
Implicit Types (k : string → option R) (p : ascii → bool).

Lemma star_k_greedy p s k r :
  k (drop_while p s) = Some r → star_k p s k = Some r.
Proof.
  induction s as [|c s IH]; simpl; [done|].
  destruct (p c); [|done]. intros Hk. by rewrite (IH Hk).
Qed.

Lemma star_k_here p s k : is_Some (k s) → is_Some (star_k p s k).
Proof.
  intros Hk. destruct s as [|c s]; simpl; [done|].
  destruct (p c); [|done]. by destruct (star_k p s k).
Qed.

Lemma star_k_some p m rest k :
  all_chars p m = true → is_Some (k rest) →
  is_Some (star_k p (m +:+ rest) k).
Proof.
  induction m as [|c m IH]; simpl.
  - intros _. apply star_k_here.
  - intros [-> Hm]%andb_prop Hk.
    destruct (IH Hm Hk) as [r ->]. by eexists.
Qed.

Lemma star_k_inv p s k r :
  star_k p s k = Some r →
  ∃ m rest, s = m +:+ rest ∧ all_chars p m = true ∧ k rest = Some r.
Proof.
  induction s as [|c s IH]; simpl.
  - intros Hk. by exists "", "".
  - destruct (p c) eqn:Hc; [|intros Hk; by exists "", (String c s)].
    destruct (star_k p s k) as [r'|] eqn:Hstar.
    + intros [= ->]. destruct (IH eq_refl) as (m & rest & -> & Hm & Hk).
      exists (String c m), rest. simpl. by rewrite Hc, Hm.
    + intros Hk. by exists "", (String c s).
Qed.

Lemma atom_k_inv a s k r :
  atom_k a s k = Some r →
  ∃ m rest, s = m +:+ rest ∧ atom_text a m ∧ k rest = Some r.
Proof.
  destruct a as [p|p|p|p]; simpl.
  - destruct s as [|c s]; [done|]. destruct (p c) eqn:Hc; [|done].
    intros Hk. exists (String c ""), s. eauto.
  - destruct s as [|c s]; [intros Hk; exists "", ""; eauto|].
    destruct (p c) eqn:Hc; [|intros Hk; exists "", (String c s); eauto].
    destruct (k s) as [r'|] eqn:Hks.
    + intros [= ->]. exists (String c ""), s. eauto 6.
    + intros Hk. exists "", (String c s). eauto.
  - apply star_k_inv.
  - destruct s as [|c s]; [done|]. destruct (p c) eqn:Hc; [|done].
    intros (m & rest & -> & Hm & Hk)%star_k_inv.
    exists (String c m), rest. simpl. by rewrite Hc, Hm.
Qed.

Lemma atoms_k_inv body s k r :
  atoms_k body s k = Some r →
  ∃ m rest, s = m +:+ rest ∧ body_text body m ∧ k rest = Some r.
Proof.
  revert s k. induction body as [|a body IH]; intros s k; simpl.
  - intros Hk. by exists "", s.
  - intros (m1 & s1 & -> & Ha & Hrest)%atom_k_inv.
    apply IH in Hrest as (m2 & rest & -> & Hbody & Hk).
    exists (m1 +:+ m2), rest. rewrite str_app_assoc. eauto 8.
Qed.

Lemma items_k_inv (r : regex) s groups (k : list string → string → option R) x :
  items_k r s groups k = Some x →
  ∃ m rest gs, s = m +:+ rest ∧ regex_text r m gs
               ∧ k (groups ++ gs) rest = Some x.
Proof.
  revert s groups. induction r as [|[a|body] r IH]; intros s groups; simpl.
  - intros Hk. exists "", s, []. by rewrite app_nil_r.
  - intros (m1 & s1 & -> & Ha & Hrest)%atom_k_inv.
    apply IH in Hrest as (m2 & rest & gs & -> & Hr & Hk).
    exists (m1 +:+ m2), rest, gs. rewrite str_app_assoc. eauto 10.
  - intros (m1 & s1 & -> & Hb & Hrest)%atoms_k_inv.
    rewrite consumed_app in Hrest.
    apply IH in Hrest as (m2 & rest & gs & -> & Hr & Hk).
    exists (m1 +:+ m2), rest, (m1 :: gs).
    rewrite str_app_assoc, <- app_assoc in *. simpl in Hk. eauto 12.
Qed.

End MatcherFacts.

Lemma re_match_inv (r : regex) s gs rest :
  re_match r s = Some (gs, rest) →
  ∃ m, s = m +:+ rest ∧ regex_text r m gs.
Proof.
  intros (m & rest' & gs' & -> & Hr & [= <- <-])%items_k_inv. eauto.
Qed.

(** Every entry of [findall] is the groups of a match. *)
Lemma findall_from_Forall (r : regex) (P : list string → Prop) :
  (∀ s gs rest, re_match r s = Some (gs, rest) → P gs) →
  ∀ s n, Forall P (findall_from r n s).
Proof.
  intros HP. induction s as [|c s IH]; intros n; simpl; [constructor|].
  destruct n; [|apply IH].
  destruct (re_match r (String c s)) as [[gs rest]|] eqn:Hm; [|apply IH].
  constructor; [by eapply HP | apply IH].
Qed.

(** After a match, the search goes on behind it. *)
Lemma findall_from_skip (r : regex) (m rest : string) :
  findall_from r (String.length m) (m +:+ rest) = findall_from r 0 rest.
Proof. induction m as [|c m IH]; simpl; [by destruct rest | done]. Qed.

Lemma findall_match (r : regex) c m rest gs :
  re_match r (String c (m +:+ rest)) = Some (gs, rest) →
  findall r (String c (m +:+ rest)) = gs :: findall r rest.
Proof.
  intros Hm. unfold findall. simpl findall_from. rewrite Hm.
  f_equal. simpl String.length. rewrite str_app_length.
  replace (S (String.length m + String.length rest) - String.length rest - 1)
    with (String.length m) by lia.
  apply findall_from_skip.
Qed.

Lemma findall_no_match (r : regex) c s :
  re_match r (String c s) = None →
  findall r (String c s) = findall r s.
Proof. intros Hm. unfold findall. simpl. by rewrite Hm. Qed.

(** ** Character classes, on the code points below 256 *)

Definition code (c : ascii) : N := N_of_ascii c.

Definition between (lo hi : N) (c : ascii) : bool :=
  ((lo <=? code c) && (code c <=? hi))%N.

(** [[0-9]] and [\d]. *)
Definition is_digit (c : ascii) : bool := between 48 57 c.

(** The alphanumeric characters from 128 to 255: the two ordinal
    indicators, the superscript digits, the micro sign, the three fractions
    and the letters, without the multiplication and the division sign. *)
Definition is_latin1_alnum (c : ascii) : bool :=
  between 170 170 c || between 178 179 c || between 181 181 c
  || between 185 186 c || between 188 190 c || between 192 214 c
  || between 216 246 c || between 248 255 c.

(** [\w]: letters, digits and the underscore. *)
Definition is_word (c : ascii) : bool :=
  is_digit c || between 65 90 c || between 97 122 c || Ascii.eqb c "_"
  || is_latin1_alnum c.

(** [\s]: tab, line feed, vertical tab, form feed, carriage return, the
    four separators 28 to 31, the space, the next-line character 133 and
    the no-break space 160. *)
Definition is_space (c : ascii) : bool :=
  between 9 13 c || between 28 31 c || Ascii.eqb c " "
  || between 133 133 c || between 160 160 c.

Definition is_sign (c : ascii) : bool := Ascii.eqb c "+" || Ascii.eqb c "-".
Definition is_dot (c : ascii) : bool := Ascii.eqb c ".".
Definition is_blank (c : ascii) : bool := Ascii.eqb c " ".
Definition is_LF (c : ascii) : bool := Ascii.eqb c LF.

(** The classes exclude one another where the patterns need it. *)
Ltac by_cases_on c :=
  destruct c as [[] [] [] [] [] [] [] []]; vm_compute; congruence.

Lemma word_not_blank c : is_word c = true → is_blank c = false.
Proof. by_cases_on c. Qed.

Lemma word_not_LF c : is_word c = true → is_LF c = false.
Proof. by_cases_on c. Qed.

Lemma word_not_dot c : is_word c = true → is_dot c = false.
Proof. by_cases_on c. Qed.

Lemma digit_word c : is_digit c = true → is_word c = true.
Proof. by_cases_on c. Qed.

Lemma digit_not_space c : is_digit c = true → is_space c = false.
Proof. by_cases_on c. Qed.

Lemma sign_not_LF c : is_sign c = true → is_LF c = false.
Proof. by_cases_on c. Qed.

Lemma sign_not_dot c : is_sign c = true → is_dot c = false.
Proof. by_cases_on c. Qed.

Lemma blank_not_LF c : is_blank c = true → is_LF c = false.
Proof. by_cases_on c. Qed.

Lemma blank_not_dot c : is_blank c = true → is_dot c = false.
Proof. by_cases_on c. Qed.

Lemma blank_not_digit c : is_blank c = true → is_digit c = false.
Proof. by_cases_on c. Qed.

Lemma LF_not_digit c : is_LF c = true → is_digit c = false.
Proof. by_cases_on c. Qed.

Lemma LF_space c : is_LF c = true → is_space c = true.
Proof. by_cases_on c. Qed.

End Re.

(** * Geometry (geometry.py) *)

Module Geometry.
Import Re.

(** [FLOAT_PATTERN = "([+-]?[0-9]*[.][0-9]+)"] *)
Definition FLOAT_BODY : list atom :=
  [Opt is_sign; Star is_digit; One is_dot; Plus is_digit].
Definition FLOAT_PATTERN : item := Group FLOAT_BODY.

(** [XYZ_PATTERN = f"(\w) {FLOAT_PATTERN} {FLOAT_PATTERN} {FLOAT_PATTERN}"] *)
Definition XYZ_PATTERN : regex :=
  [Group [One is_word]; Bare (One is_blank); FLOAT_PATTERN;
   Bare (One is_blank); FLOAT_PATTERN; Bare (One is_blank); FLOAT_PATTERN].

(** ["\s*(?P<num_atoms>\d+)\s*\n"] *)
Definition NUM_ATOMS_PATTERN : regex :=
  [Bare (Star is_space); Group [Plus is_digit]; Bare (Star is_space);
   Bare (One is_LF)].

(** The default of [sys.int_info]: [int] refuses a text of more digits
    with [ValueError]. *)
Definition int_max_str_digits : nat := 4300.

(** [int] on a text of decimal digits (leading zeros allowed), for a text
    within [int_max_str_digits]: the refusal of a longer text is not
    modelled, and the statements that depend on the declared count keep
    the count within the limit. *)
Definition digit_value (c : ascii) : N := (code c - 48)%N.

Fixpoint int_from (acc : N) (s : string) : N :=
  match s with
  | "" => acc
  | String c s' => int_from (acc * 10 + digit_value c)%N s'
  end.

Definition int (s : string) : N := int_from 0 s.

Section Geometry.

(** Python's [float] on a text that [FLOAT_PATTERN] has matched; the type
    of floats is kept abstract. *)
Context {F : Type}.
Variable float : string → F.

Record Element : Type := {
  name : string;
  x : F;
  y : F;
  z : F
}.

(** [Geometry(List[Element])] with its [charge] attribute. *)
Record Geometry : Type := {
  elements : list Element;
  charge : option Z
}.

(** [Geometry.__init__] with [charge] left at its default. *)
Definition cls (elements : list Element) : Geometry :=
  {| elements := elements; charge := None |}.

(** [Element.from_tuple]: [name, x, y, z = value] needs four items. *)
Definition from_tuple (value : list string) : Outcome Element :=
  match value with
  | [name; x; y; z] =>
      Return {| name := name; x := float x; y := float y; z := float z |}
  | _ => Raise ValueError
  end.

(** The [coordinates] property. *)
Definition coordinates (g : Geometry) : list (string * F * F * F) :=
  map (fun element => (name element, x element, y element, z element))
      (elements g).

Definition from_xyz (xyz : string) : Outcome Geometry :=
  if negb (contains newline xyz) then Return (cls [])
  else
    let num_atoms := re_match NUM_ATOMS_PATTERN xyz in
    let match_ := findall XYZ_PATTERN xyz in
    match num_atoms with
    | Some (groups, _) =>
        if (N.of_nat (length match_) =? int (nth 0 groups ""))%N then
          elements ← mapM from_tuple match_;
          Return (cls elements)
        else Raise AssertionError
    | None => Raise AssertionError
    end.

End Geometry.

(** ** Float literals

    A text that [FLOAT_PATTERN] matches as a whole: an optional sign,
    digits, a dot, and at least one digit. *)
Definition unsigned (f : string) : string :=
  match f with
  | String c f' => if is_sign c then f' else f
  | "" => f
  end.

Definition float_literal (f : string) : bool :=
  match drop_while is_digit (unsigned f) with
  | String c f3 => is_dot c && nonempty f3 && all_chars is_digit f3
  | "" => false
  end.

Lemma drop_while_app_stop p (m rest : string) c m' :
  drop_while p m = String c m' →
  drop_while p (m +:+ rest) = String c m' +:+ rest.
Proof.
  induction m as [|a m IH]; simpl; [done|].
  destruct (p a); [done|]. by intros [= -> ->].
Qed.

Section FloatMatch.
Context {R : Type}.

(** The matcher reads a float literal whole when no digit follows it. *)
Lemma float_body_k (f rest : string) (k : string → option R) r :
  float_literal f = true → stops is_digit rest = true →
  k rest = Some r →
  atoms_k FLOAT_BODY (f +:+ rest) k = Some r.
Proof.
  unfold float_literal. intros Hf Hrest Hk.
  destruct (drop_while is_digit (unsigned f)) as [|c f3] eqn:Hdrop; [done|].
  apply andb_prop in Hf as [[Hc H3]%andb_prop Hd3].
  assert (Hgo : star_k is_digit (unsigned f +:+ rest)
            (fun s2 => atoms_k [One is_dot; Plus is_digit] s2 k) = Some r).
  { apply star_k_greedy. rewrite (drop_while_app_stop _ _ _ _ _ Hdrop).
    cbn [String.append atoms_k atom_k]. rewrite Hc.
    destruct f3 as [|d f3]; [done|]. simpl in Hd3.
    apply andb_prop in Hd3 as [Hd Hd3].
    cbn [String.append]. rewrite Hd.
    apply star_k_greedy. by rewrite drop_while_all. }
  cbn [FLOAT_BODY atoms_k]. unfold atom_k at 1.
  destruct f as [|a f]; [done|]. cbn [String.append].
  simpl in Hgo. destruct (is_sign a) eqn:Ha.
  - cbn [atoms_k atom_k] in *. by rewrite Hgo.
  - exact Hgo.
Qed.

Lemma float_group_k (f rest : string) (r' : regex) groups
    (k : list string → string → option R) x :
  float_literal f = true → stops is_digit rest = true →
  items_k r' rest (groups ++ [f]) k = Some x →
  items_k (FLOAT_PATTERN :: r') (f +:+ rest) groups k = Some x.
Proof.
  intros Hf Hrest Hk. cbn [items_k FLOAT_PATTERN].
  apply float_body_k; [done..|]. by rewrite consumed_app.
Qed.

End FloatMatch.

Section ItemSteps.
Context {R : Type}.
Implicit Types (k : list string → string → option R).

Lemma items_k_one p c (s : string) (r' : regex) groups k :
  p c = true →
  items_k (Bare (One p) :: r') (String c s) groups k = items_k r' s groups k.
Proof. intros Hc. simpl. by rewrite Hc. Qed.

Lemma items_k_group_one p c (s : string) (r' : regex) groups k :
  p c = true →
  items_k (Group [One p] :: r') (String c s) groups k
  = items_k r' s (groups ++ [String c ""]) k.
Proof.
  intros Hc. cbn [items_k atoms_k atom_k]. rewrite Hc.
  change (String c s) with (String c "" +:+ s).
  by rewrite consumed_app.
Qed.

End ItemSteps.

(** A coordinate record is matched from its last name character on. *)
Lemma xyz_match_record (c : ascii) (f1 f2 f3 rest : string) :
  is_word c = true →
  float_literal f1 = true → float_literal f2 = true →
  float_literal f3 = true → stops is_digit rest = true →
  re_match XYZ_PATTERN
    (String c (" " +:+ f1 +:+ " " +:+ f2 +:+ " " +:+ f3 +:+ rest))
  = Some ([String c ""; f1; f2; f3], rest).
Proof.
  intros Hc H1 H2 H3 Hrest. unfold re_match, XYZ_PATTERN.
  cbn [String.append].
  rewrite items_k_group_one by done. rewrite items_k_one by done.
  apply float_group_k; [done..|]. rewrite items_k_one by done.
  apply float_group_k; [done..|]. rewrite items_k_one by done.
  apply float_group_k; [done..|]. done.
Qed.

(** A word character followed by another one starts no match. *)
Lemma xyz_no_match_in_name (a b : ascii) (s : string) :
  is_blank b = false → re_match XYZ_PATTERN (String a (String b s)) = None.
Proof.
  intros Hb. unfold re_match, XYZ_PATTERN.
  cbn [items_k atoms_k atom_k]. destruct (is_word a); [|done]. by rewrite Hb.
Qed.

Lemma xyz_no_match_at c (s : string) :
  is_word c = false → re_match XYZ_PATTERN (String c s) = None.
Proof.
  intros Hc. unfold re_match, XYZ_PATTERN.
  cbn [items_k atoms_k atom_k]. by rewrite Hc.
Qed.

(** ** Where no match can start *)

(** A dot comes before the first line feed of [s]. *)
Fixpoint dot_first (s : string) : bool :=
  match s with
  | "" => false
  | String c s' =>
      if is_dot c then true else if is_LF c then false else dot_first s'
  end.

Definition not_LF (c : ascii) : bool := negb (is_LF c).
Definition not_dot (c : ascii) : bool := negb (is_dot c).

Lemma dot_first_app (pre : string) c (rest : string) :
  all_chars not_LF pre = true → is_dot c = true →
  dot_first (pre +:+ String c rest) = true.
Proof.
  intros Hpre Hc. induction pre as [|a pre IH]; simpl; [by rewrite Hc|].
  simpl in Hpre. apply andb_prop in Hpre as [Ha Hpre].
  destruct (is_dot a); [done|].
  unfold not_LF in Ha. apply negb_true_iff in Ha as ->. by apply IH.
Qed.

Lemma dot_first_dotless (t rest : string) :
  all_chars not_dot t = true → dot_first (t +:+ newline +:+ rest) = false.
Proof.
  induction t as [|a t IH]; [done|]. cbn [all_chars String.append dot_first].
  intros [Ha Ht]%andb_prop. unfold not_dot in Ha.
  apply negb_true_iff in Ha as ->. rewrite (IH Ht). by destruct (is_LF a).
Qed.

(** The text of a float body has its dot before any line feed. *)
Lemma float_body_dot (f rest : string) :
  body_text FLOAT_BODY f → dot_first (f +:+ rest) = true.
Proof.
  simpl. intros (sg & m1 & -> & Hsg & ds & m2 & -> & Hds & d & m3 & ->
                 & (c & -> & Hc) & _).
  rewrite !str_app_assoc. cbn [String.append].
  rewrite <- (str_app_assoc sg ds). apply dot_first_app; [|done].
  rewrite all_chars_app. apply andb_true_intro. split.
  - destruct Hsg as [->|(a & -> & Ha)]; [done|]. simpl.
    unfold not_LF. by rewrite (sign_not_LF _ Ha).
  - eapply all_chars_impl; [|exact Hds]. intros a Ha. unfold not_LF.
    by rewrite (word_not_LF _ (digit_word _ Ha)).
Qed.

Lemma xyz_match_dot_first (s : string) gs rest :
  re_match XYZ_PATTERN s = Some (gs, rest) → dot_first s = true.
Proof.
  intros (m & -> & Hm)%re_match_inv. cbn [XYZ_PATTERN regex_text] in Hm.
  destruct Hm as (n1 & m1 & g1 & -> & -> & (c1 & e1 & -> & (c & -> & Hc) & ->)
    & b1 & m2 & -> & (b & -> & Hb) & f1 & m3 & g2 & -> & -> & Hf1 & _).
  cbn [String.append dot_first].
  rewrite (word_not_dot _ Hc), (word_not_LF _ Hc).
  rewrite (blank_not_dot _ Hb), (blank_not_LF _ Hb).
  rewrite str_app_assoc. by apply float_body_dot.
Qed.

(** [findall] passes over a text without dots up to its line feed. *)
Lemma findall_dotless (t rest : string) :
  all_chars not_dot t = true →
  findall XYZ_PATTERN (t +:+ newline +:+ rest) = findall XYZ_PATTERN rest.
Proof.
  induction t as [|a t IH]; intros Ht.
  - cbn [String.append newline]. apply findall_no_match.
    by apply xyz_no_match_at.
  - cbn [String.append]. rewrite findall_no_match.
    + apply IH. simpl in Ht. by apply andb_prop in Ht as [_ Ht].
    + destruct (re_match XYZ_PATTERN (String a (t +:+ newline +:+ rest)))
        as [[gs r]|] eqn:Hm; [|done].
      apply xyz_match_dot_first in Hm.
      pose proof (dot_first_dotless (String a t) rest Ht) as Hd.
      cbn [String.append] in Hd. congruence.
Qed.

(** ** Coordinate lines *)

(** [s[-1:]]: the last character of [s]. *)
Fixpoint last_char (s : string) : string :=
  match s with
  | "" => ""
  | String c "" => String c ""
  | String _ s' => last_char s'
  end.

(** One coordinate line without its line feed. *)
Definition xyz_line (symbol fx fy fz : string) : string :=
  symbol +:+ " " +:+ fx +:+ " " +:+ fy +:+ " " +:+ fz.

(** A symbol is a non-empty text of word characters. *)
Definition is_symbol (s : string) : bool := nonempty s && all_chars is_word s.

Lemma findall_match_at (r : regex) c (s m rest : string) gs :
  s = m +:+ rest → re_match r (String c s) = Some (gs, rest) →
  findall r (String c s) = gs :: findall r rest.
Proof. intros ->. apply findall_match. Qed.

(** The scan finds in a coordinate line one record, named by the last
    character of the symbol. *)
Lemma findall_line (symbol fx fy fz rest : string) :
  is_symbol symbol = true →
  float_literal fx = true → float_literal fy = true →
  float_literal fz = true →
  findall XYZ_PATTERN (xyz_line symbol fx fy fz +:+ newline +:+ rest)
  = [last_char symbol; fx; fy; fz] :: findall XYZ_PATTERN rest.
Proof.
  intros [Hne Hsym]%andb_prop Hx Hy Hz. unfold xyz_line.
  rewrite !str_app_assoc.
  induction symbol as [|a symbol IH]; [done|]. clear Hne.
  simpl in Hsym. apply andb_prop in Hsym as [Ha Hsym].
  destruct symbol as [|b symbol].
  - cbn [String.append last_char].
    rewrite (findall_match_at _ _ _
               (" " +:+ fx +:+ " " +:+ fy +:+ " " +:+ fz)
               (newline +:+ rest)
               [String a ""; fx; fy; fz]).
    + reflexivity.
    + by rewrite !str_app_assoc.
    + by apply xyz_match_record.
  - cbn [String.append last_char]. rewrite findall_no_match.
    + by apply IH.
    + apply xyz_no_match_in_name, word_not_blank.
      simpl in Hsym. by apply andb_prop in Hsym as [Hb _].
Qed.

(** ** Decimal numbers: [str] of a natural number, read back by [int] *)

Lemma pretty_N_char_digit (d : N) : is_digit (pretty_N_char d) = true.
Proof. unfold pretty_N_char. by repeat case_match. Qed.

Lemma pretty_N_char_value (d : N) :
  (d < 10)%N → digit_value (pretty_N_char d) = d.
Proof.
  intros Hd.
  assert (d = 0 ∨ d = 1 ∨ d = 2 ∨ d = 3 ∨ d = 4 ∨ d = 5 ∨ d = 6 ∨ d = 7
          ∨ d = 8 ∨ d = 9)%N as Hcases by lia.
  by repeat (destruct Hcases as [->|Hcases]); [..|subst d].
Qed.

Lemma pretty_N_go_digits (x : N) (s : string) :
  all_chars is_digit s = true → nonempty s = true →
  all_chars is_digit (pretty_N_go x s) = true
  ∧ nonempty (pretty_N_go x s) = true.
Proof.
  revert s. induction (N.lt_wf_0 x) as [x _ IH]; intros s Hs Hne.
  assert (x = 0 ∨ 0 < x)%N as [->|Hx] by lia.
  { rewrite pretty_N_go_0. by split. }
  rewrite pretty_N_go_step by done. apply IH.
  - by apply N.div_lt.
  - simpl. by rewrite pretty_N_char_digit.
  - done.
Qed.

Lemma pretty_nat_digits (n : nat) :
  all_chars is_digit (pretty n) = true ∧ nonempty (pretty n) = true.
Proof.
  unfold pretty, pretty_nat, pretty, pretty_N.
  case_decide as Hn; [done|].
  assert (0 < N.of_nat n)%N as Hpos by lia.
  rewrite pretty_N_go_step by done.
  apply pretty_N_go_digits; [simpl; by rewrite pretty_N_char_digit | done].
Qed.

Lemma int_from_pretty_N_go (x : N) (s : string) :
  ∃ k : N, ∀ acc,
    int_from acc (pretty_N_go x s) = int_from (acc * 10 ^ k + x)%N s.
Proof.
  revert s. induction (N.lt_wf_0 x) as [x _ IH]; intros s.
  assert (x = 0 ∨ 0 < x)%N as [->|Hx] by lia.
  - exists 0%N. intros acc. rewrite pretty_N_go_0. f_equal. lia.
  - destruct (IH (x `div` 10)%N (N.div_lt x 10 Hx eq_refl)
                (String (pretty_N_char (x `mod` 10)) s)) as [k Hk].
    exists (N.succ k). intros acc.
    rewrite pretty_N_go_step by done. rewrite Hk. simpl. f_equal.
    rewrite pretty_N_char_value by (by apply N.mod_lt).
    rewrite N.pow_succ_r'.
    pose proof (N.div_mod x 10 ltac:(done)). lia.
Qed.

Lemma int_pretty (n : nat) : int (pretty n) = N.of_nat n.
Proof.
  unfold pretty, pretty_nat, pretty, pretty_N, int.
  case_decide as Hn; [by rewrite Hn|].
  destruct (int_from_pretty_N_go (N.of_nat n) "") as [k Hk].
  rewrite Hk. simpl. lia.
Qed.

(** ** The count line *)

(** A line of digits at the start of the text is the declared count. *)
Lemma num_atoms_match (d rest : string) :
  nonempty d = true → all_chars is_digit d = true →
  ∃ rest', re_match NUM_ATOMS_PATTERN (d +:+ newline +:+ rest)
           = Some ([d], rest').
Proof.
  intros Hne Hd. destruct d as [|c d]; [done|]. simpl in Hd.
  apply andb_prop in Hd as [Hc Hd].
  assert (∃ rest', items_k [Bare (Star is_space); Bare (One is_LF)]
                     (newline +:+ rest) [String c d]
                     (fun groups rest' => Some (groups, rest'))
                   = Some ([String c d], rest')) as [rest' Hk].
  { cbn [items_k]. unfold atom_k at 1.
    match goal with |- ∃ _, star_k ?p ?s ?k = _ => destruct (star_k_here p s k) as [r Hr] end.
    { by eexists. }
    rewrite Hr. apply star_k_inv in Hr as (m & rest' & _ & _ & Hr).
    simpl in Hr. destruct rest' as [|c' rest']; [done|].
    destruct (is_LF c'); [|done]. injection Hr as <-. by eexists. }
  exists rest'. unfold re_match, NUM_ATOMS_PATTERN.
  cbn [items_k atom_k String.append star_k].
  rewrite (digit_not_space _ Hc). cbn [atoms_k atom_k]. rewrite Hc.
  apply star_k_greedy.
  rewrite drop_while_all by done.
  change (String c (d +:+ newline +:+ rest))
    with (String c d +:+ (newline +:+ rest)).
  rewrite consumed_app. exact Hk.
Qed.

(** ** What [from_xyz] reads: the count and the coordinate records *)

(** The atom count that the text declares: the number that
    [NUM_ATOMS_PATTERN] finds at its start. *)
Definition declared_atoms (xyz : string) : option N :=
  match re_match NUM_ATOMS_PATTERN xyz with
  | Some (groups, _) => Some (int (nth 0 groups ""))
  | None => None
  end.

(** The coordinate records that parse as
    [<element> <float> <float> <float>]. *)
Definition parsed_records (xyz : string) : list (list string) :=
  findall XYZ_PATTERN xyz.

(** The number of digits of the declared count, which [int] reads. *)
Definition count_digits (xyz : string) : nat :=
  match re_match NUM_ATOMS_PATTERN xyz with
  | Some (groups, _) => String.length (nth 0 groups "")
  | None => 0
  end.

(** As the specification words it: a line parses as
    [<element> <float> <float> <float>] when such a record is read from
    it, and the coordinate lines of a text are the lines of that kind
    after the count line and the title line. *)
Definition parses_as_coordinates (line : string) : bool :=
  match findall XYZ_PATTERN line with
  | [] => false
  | _ :: _ => true
  end.

Definition coordinate_lines (xyz : string) : list string :=
  List.filter parses_as_coordinates (drop 2 (split_lines xyz)).

Lemma contains_newline (s : string) : contains newline s = negb (one_line s).
Proof.
  induction s as [|c s IH]; [done|].
  cbn [contains one_line startswith newline]. rewrite IH.
  rewrite (Ascii.eqb_sym LF c). by destruct (Ascii.eqb c LF), s.
Qed.

Lemma contains_newline_app (m rest : string) :
  contains newline (m +:+ newline +:+ rest) = true.
Proof.
  rewrite contains_newline. apply negb_true_iff.
  induction m as [|c m IH]; [done|].
  cbn [String.append one_line]. rewrite IH. apply andb_false_r.
Qed.

(** A text in which [NUM_ATOMS_PATTERN] matches has a line feed. *)
Lemma num_atoms_match_newline (xyz : string) gs rest :
  re_match NUM_ATOMS_PATTERN xyz = Some (gs, rest) →
  contains newline xyz = true.
Proof.
  intros (m & -> & Hm)%re_match_inv. simpl in Hm.
  destruct Hm as (w1 & m1 & -> & _ & d & m2 & gs' & -> & _ & _ & w2 & m3
                  & -> & _ & l & m4 & -> & (c & -> & Hc) & -> & _).
  apply Ascii.eqb_eq in Hc as ->.
  rewrite !str_app_nil_r, <- !str_app_assoc.
  rewrite (str_app_assoc _ newline rest). apply contains_newline_app.
Qed.

(** The groups of a match of [XYZ_PATTERN]: one word character and three
    texts. *)
Lemma xyz_match_groups (s : string) gs rest :
  re_match XYZ_PATTERN s = Some (gs, rest) →
  ∃ c f1 f2 f3, gs = [String c ""; f1; f2; f3] ∧ is_word c = true.
Proof.
  intros (m & -> & Hm)%re_match_inv. simpl in Hm.
  destruct Hm as (n1 & m1 & g1 & -> & -> & (c1 & e1 & -> & (c & -> & Hc) & ->)
    & b1 & m2 & -> & _ & f1 & m3 & g2 & -> & -> & _
    & b2 & m4 & -> & _ & f2 & m5 & g3 & -> & -> & _
    & b3 & m6 & -> & _ & f3 & m7 & g4 & -> & -> & _ & -> & ->).
  exists c, f1, f2, f3. by rewrite str_app_nil_r.
Qed.

(** ** A text of coordinate lines

    A record is a symbol and three float texts; [xyz_block] is the XYZ
    text with a count line, a title line and one line for each record. *)

Definition record : Type := string * string * string * string.

Definition record_line (r : record) : string :=
  let '(symbol, fx, fy, fz) := r in xyz_line symbol fx fy fz.

Definition record_ok (r : record) : bool :=
  let '(symbol, fx, fy, fz) := r in
  is_symbol symbol && float_literal fx && float_literal fy
  && float_literal fz.

Definition record_groups (r : record) : list string :=
  let '(symbol, fx, fy, fz) := r in [last_char symbol; fx; fy; fz].

Definition xyz_block (count title : string) (lines : list string) : string :=
  count +:+ newline +:+ title +:+ newline
  +:+ String.concat "" (map (fun l => l +:+ newline) lines).

Lemma findall_lines (recs : list record) :
  forallb record_ok recs = true →
  findall XYZ_PATTERN
    (String.concat "" (map (fun l => l +:+ newline) (map record_line recs)))
  = map record_groups recs.
Proof.
  induction recs as [|[[[symbol fx] fy] fz] recs IH]; [done|].
  cbn [forallb record_ok]. intros [Hr Hrecs]%andb_prop.
  apply andb_prop in Hr as [[[Hs Hx]%andb_prop Hy]%andb_prop Hz].
  rewrite !map_cons, concat_nosep_cons. cbn [record_line record_groups].
  rewrite str_app_assoc, findall_line by done. by rewrite IH.
Qed.

Lemma findall_block (count title : string) (recs : list record) :
  all_chars not_dot count = true → all_chars not_dot title = true →
  forallb record_ok recs = true →
  findall XYZ_PATTERN (xyz_block count title (map record_line recs))
  = map record_groups recs.
Proof.
  intros Hc Ht Hrecs. unfold xyz_block.
  rewrite (findall_dotless count) by done.
  rewrite (findall_dotless title) by done.
  by apply findall_lines.
Qed.

Lemma digits_not_dot (d : string) :
  all_chars is_digit d = true → all_chars not_dot d = true.
Proof.
  apply all_chars_impl. intros c Hc. unfold not_dot.
  by rewrite (word_not_dot _ (digit_word _ Hc)).
Qed.

(** A match of [XYZ_PATTERN] is never empty, which is what
    [findall_from] relies on. *)
Lemma xyz_match_nonempty (s : string) gs rest :
  re_match XYZ_PATTERN s = Some (gs, rest) →
  String.length rest < String.length s.
Proof.
  intros (m & -> & Hm)%re_match_inv. cbn [XYZ_PATTERN regex_text] in Hm.
  destruct Hm as (n1 & m1 & g1 & -> & -> & (c1 & e1 & -> & (c & -> & Hc) & ->)
                  & _).
  rewrite !str_app_length. simpl. lia.
Qed.

Section Reading.
Context {F : Type}.
Variable float : string → F.

Definition record_element (r : record) : Element (F:=F) :=
  let '(symbol, fx, fy, fz) := r in
  {| name := last_char symbol; x := float fx; y := float fy; z := float fz |}.

Lemma mapM_from_tuple_records (recs : list record) :
  mapM (from_tuple float) (map record_groups recs)
  = Return (map record_element recs).
Proof.
  induction recs as [|[[[symbol fx] fy] fz] recs IH]; [done|].
  rewrite !map_cons. cbn [mapM]. cbn [mapM] in IH. rewrite IH.
  reflexivity.
Qed.

(** [from_xyz] on a text of [n] coordinate lines that declares [n] atoms:
    one element for each line, named by the last character of its
    symbol. *)
Lemma from_xyz_block (title : string) (recs : list record) :
  all_chars not_dot title = true → forallb record_ok recs = true →
  from_xyz float
    (xyz_block (pretty (length recs)) title (map record_line recs))
  = Return (cls (map record_element recs)).
Proof.
  intros Ht Hrecs. unfold from_xyz.
  destruct (pretty_nat_digits (length recs)) as [Hd Hne].
  unfold xyz_block at 1. rewrite contains_newline_app. cbn [negb].
  destruct (num_atoms_match (pretty (length recs))
              (title +:+ newline +:+ String.concat ""
                 (map (fun l => l +:+ newline) (map record_line recs)))
              Hne Hd) as [rest' Hnum].
  unfold xyz_block at 1. rewrite Hnum. cbn [nth].
  rewrite findall_block by (done || by apply digits_not_dot).
  rewrite length_map, int_pretty, N.eqb_refl.
  by rewrite mapM_from_tuple_records.
Qed.

Lemma mapM_from_tuple_names (matches : list (list string)) els :
  Forall (fun gs => ∃ c f1 f2 f3,
            gs = [String c ""; f1; f2; f3] ∧ is_word c = true) matches →
  mapM (from_tuple float) matches = Return els →
  Forall (fun el => ∃ c, name el = String c "" ∧ is_word c = true) els.
Proof.
  intros Hall. revert els.
  induction Hall as [|gs matches (c & f1 & f2 & f3 & -> & Hc) _ IH];
    intros els; simpl.
  - intros [= <-]. constructor.
  - destruct (mapM (from_tuple float) matches) as [els'|e]; simpl; [|done].
    intros [= <-]. constructor; [by exists c | by apply IH].
Qed.

(** ** No line feed, no atoms *)

(** C6: on a text without any line feed character [from_xyz] returns the
    empty geometry, and raises nothing. *)
Theorem from_xyz_without_newline (xyz : string) :
  one_line xyz = true →
  from_xyz float xyz = Return (cls []) ∧ elements (cls (F:=F) []) = [].
Proof.
  intros Hone. split; [|done].
  unfold from_xyz. by rewrite contains_newline, Hone.
Qed.

Lemma count_mismatch_raises (xyz : string) (N : N) :
  declared_atoms xyz = Some N →
  N.of_nat (length (parsed_records xyz)) ≠ N →
  from_xyz float xyz = Raise AssertionError.
Proof.
  unfold declared_atoms, parsed_records, from_xyz.
  destruct (re_match NUM_ATOMS_PATTERN xyz) as [[gs rest]|] eqn:Hnum; [|done].
  intros [= <-] Hne.
  rewrite (num_atoms_match_newline _ _ _ Hnum). simpl.
  by apply N.eqb_neq in Hne as ->.
Qed.

(** The same on a text of coordinate lines: a count line that declares
    [n] atoms over [m] coordinate lines, [m] other than [n]. *)
Lemma block_count_mismatch (n : nat) (title : string) (recs : list record) :
  all_chars not_dot title = true → forallb record_ok recs = true →
  n ≠ length recs →
  from_xyz float (xyz_block (pretty n) title (map record_line recs))
  = Raise AssertionError.
Proof.
  intros Ht Hrecs Hne. apply (count_mismatch_raises _ (N.of_nat n)).
  - unfold declared_atoms, xyz_block.
    destruct (pretty_nat_digits n) as [Hd Hnz].
    destruct (num_atoms_match (pretty n)
                (title +:+ newline +:+ String.concat ""
                   (map (fun l => l +:+ newline) (map record_line recs)))
                Hnz Hd) as [rest' ->].
    cbn [nth]. by rewrite int_pretty.
  - unfold parsed_records. destruct (pretty_nat_digits n) as [Hd _].
    rewrite findall_block by (done || by apply digits_not_dot).
    rewrite length_map. lia.
Qed.

(** A text with a line feed and no declared count fails the same way. *)
Lemma from_xyz_no_count (xyz : string) :
  one_line xyz = false → declared_atoms xyz = None →
  from_xyz float xyz = Raise AssertionError.
Proof.
  unfold declared_atoms, from_xyz. rewrite contains_newline.
  intros ->. simpl.
  by destruct (re_match NUM_ATOMS_PATTERN xyz) as [[gs rest]|].
Qed.

(** ** Element names and the charge *)

Lemma from_xyz_cases (xyz : string) g :
  from_xyz float xyz = Return g →
  g = cls []
  ∨ ∃ els, mapM (from_tuple float) (findall XYZ_PATTERN xyz) = Return els
           ∧ g = cls els.
Proof.
  unfold from_xyz. destruct (negb (contains newline xyz)).
  { intros [= <-]. by left. }
  destruct (re_match NUM_ATOMS_PATTERN xyz) as [[gs rest]|]; [|done].
  destruct (N.of_nat _ =? _)%N; [|done].
  destruct (mapM (from_tuple float) (findall XYZ_PATTERN xyz))
    as [els|e] eqn:Hels; [|done].
  intros [= <-]. right. by exists els.
Qed.

(** C10: the name of every element that [from_xyz] returns is the one word
    character that the first group of [XYZ_PATTERN] has captured, and the
    charge of every geometry that [from_xyz] returns is [None]; read from a
    text of coordinate lines, the name of each element is the last
    character of the symbol of its line, so only the final character of a
    symbol of two or more characters. *)
Theorem from_xyz_one_character_names :
  (∀ xyz g, from_xyz float xyz = Return g →
     charge g = None
     ∧ Forall (fun el => ∃ c, name el = String c "" ∧ is_word c = true)
              (elements g))
  ∧ (∀ title (recs : list record),
       all_chars not_dot title = true → forallb record_ok recs = true →
       ∃ g, from_xyz float
              (xyz_block (pretty (length recs)) title (map record_line recs))
            = Return g
            ∧ charge g = None
            ∧ map name (elements g)
              = map (fun r : record => last_char r.1.1.1) recs).
Proof.
  split.
  - intros xyz g [->|(els & Hels & ->)]%from_xyz_cases; [by split|].
    split; [done|]. cbn [elements cls].
    eapply mapM_from_tuple_names; [|exact Hels].
    apply findall_from_Forall. intros s gs rest. apply xyz_match_groups.
  - intros title recs Ht Hrecs. eexists. split; [by apply from_xyz_block|].
    split; [done|]. cbn [elements cls]. rewrite map_map.
    apply map_ext. by intros [[[symbol fx] fy] fz].
Qed.

End Reading.

Lemma last_char_length (s : string) : String.length (last_char s) ≤ 1.
Proof.
  induction s as [|a s IH]; simpl; [lia|]. destruct s; [simpl; lia | done].
Qed.

(** Of a symbol of two or more characters only a part is kept. *)
Lemma last_char_of_long_symbol (s : string) :
  2 ≤ String.length s → last_char s ≠ s.
Proof.
  intros Hlen Heq. pose proof (last_char_length s) as Hl.
  rewrite Heq in Hl. lia.
Qed.

Lemma last_char_symbol (s : string) :
  is_symbol s = true → is_symbol (last_char s) = true.
Proof.
  unfold is_symbol. intros [Hne Hs]%andb_prop.
  induction s as [|a s IH]; [done|]. simpl in Hs.
  apply andb_prop in Hs as [Ha Hs]. destruct s as [|b s].
  - simpl. by rewrite Ha.
  - change (last_char (String a (String b s))) with (last_char (String b s)).
    by apply IH.
Qed.

Lemma last_char_idem (s : string) : last_char (last_char s) = last_char s.
Proof.
  induction s as [|a s IH]; [done|]. destruct s as [|b s]; [done|].
  change (last_char (String a (String b s))) with (last_char (String b s)).
  exact IH.
Qed.

(** ** Writing the XYZ text *)

Section Writing.
Context {F : Type}.
Variable float : string → F.

(** The text that the formatter of [xyz.py] prints for a float. *)
Variable format_float : F → string.

(** Modelled from the spec: [qdk_chemistry/geometry/xyz.py] is not among
    the sources.  [element_coords_to_xyz] is the line of one atom,
    [<element> <x> <y> <z>]. *)
Definition element_coords_to_xyz (name : string) (x y z : F) : string :=
  xyz_line name (format_float x) (format_float y) (format_float z).

(** Modelled from the spec: [qdk_chemistry/geometry/xyz.py] is not among
    the sources.  [coordinates_to_xyz] emits the atom count line, the title
    line, then one line for each atom; the specification puts the charge
    nowhere in the text. *)
Definition coordinates_to_xyz (number_of_atoms : nat) (charge : option Z)
    (coordinates : list (string * F * F * F)) (title : string) : string :=
  xyz_block (pretty number_of_atoms) title
    (map (fun '(name, x, y, z) => element_coords_to_xyz name x y z)
         coordinates).

(** [Element.to_xyz] *)
Definition Element_to_xyz (self : Element) : string :=
  element_coords_to_xyz (name self) (x self) (y self) (z self).

(** [Geometry.to_xyz] *)
Definition to_xyz (self : Geometry) (title : string) : string :=
  coordinates_to_xyz (length (elements self)) (charge self)
    (coordinates self) title.

(** [format_geometry] *)
Definition format_geometry (geometry : Geometry (F:=F)) (line_sep : string)
  : string :=
  String.concat line_sep (map Element_to_xyz (elements geometry)).

(** [format_geometry_from_xyz] *)
Definition format_geometry_from_xyz (xyz line_sep : string) : Outcome string :=
  g ← from_xyz float xyz;
  Return (format_geometry g line_sep).

(** ** The size check *)

(** C5, as the code has it: when the text declares [N] atoms, in a count
    that [int] accepts, and the number [M] of records
    [<element> <float> <float> <float>] that the scan finds in the whole
    text differs from [N], the assertion of [from_xyz] fails and the call
    raises; the exception reaches the caller, and passes through
    [format_geometry_from_xyz] as well.  On a text of a count line, a
    title line without a dot and one record on each further line, [M] is
    the number of coordinate lines: such a text that declares [n] atoms
    over [m] coordinate lines, [m] other than [n], is refused. *)
Theorem from_xyz_count_mismatch :
  (∀ (xyz : string) (N : N),
     declared_atoms xyz = Some N →
     count_digits xyz ≤ int_max_str_digits →
     N.of_nat (length (parsed_records xyz)) ≠ N →
     from_xyz float xyz = Raise AssertionError
     ∧ ∀ line_sep,
         format_geometry_from_xyz xyz line_sep = Raise AssertionError)
  ∧ (∀ (n : nat) (title : string) (recs : list record),
       all_chars not_dot title = true → forallb record_ok recs = true →
       String.length (pretty n) ≤ int_max_str_digits →
       n ≠ length recs →
       from_xyz float (xyz_block (pretty n) title (map record_line recs))
       = Raise AssertionError).
Proof.
  split.
  - intros xyz N Hn _ Hm.
    pose proof (count_mismatch_raises float xyz N Hn Hm) as Hraise.
    split; [done|]. intros line_sep.
    unfold format_geometry_from_xyz. by rewrite Hraise.
  - intros n title recs Ht Hrecs _. by apply block_count_mismatch.
Qed.

(** The record that [to_xyz] writes for an element, and the element that
    [from_xyz] reads back from it. *)
Definition element_record (el : Element) : record :=
  (name el, format_float (x el), format_float (y el), format_float (z el)).

Definition reread (el : Element) : Element :=
  record_element float (element_record el).

Lemma to_xyz_block (g : Geometry) (title : string) :
  to_xyz g title
  = xyz_block (pretty (length (map element_record (elements g)))) title
      (map record_line (map element_record (elements g))).
Proof.
  unfold to_xyz, coordinates_to_xyz, coordinates.
  by rewrite length_map, !map_map.
Qed.

Hypothesis format_float_literal :
  ∀ v, float_literal (format_float v) = true.
Hypothesis format_float_stable :
  ∀ v, float (format_float (float (format_float v)))
       = float (format_float v).

Lemma element_records_ok (els : list Element) :
  forallb (fun el => is_symbol (name el)) els = true →
  forallb record_ok (map element_record els) = true.
Proof.
  induction els as [|el els IH]; [done|]. simpl.
  intros [Hel Hels]%andb_prop.
  by rewrite Hel, !format_float_literal, (IH Hels).
Qed.

Lemma from_xyz_to_xyz (g : Geometry) (title : string) :
  forallb (fun el => is_symbol (name el)) (elements g) = true →
  all_chars not_dot title = true →
  from_xyz float (to_xyz g title) = Return (cls (map reread (elements g))).
Proof.
  intros Hg Ht. rewrite to_xyz_block.
  rewrite from_xyz_block by (done || by apply element_records_ok).
  by rewrite map_map.
Qed.

Lemma reread_symbols (els : list Element) :
  forallb (fun el => is_symbol (name el)) els = true →
  forallb (fun el => is_symbol (name el)) (map reread els) = true.
Proof.
  induction els as [|el els IH]; [done|]. simpl.
  intros [Hel Hels]%andb_prop. by rewrite (last_char_symbol _ Hel), (IH Hels).
Qed.

Lemma reread_idem (el : Element) : reread (reread el) = reread el.
Proof.
  unfold reread, element_record, record_element. simpl.
  by rewrite last_char_idem, !format_float_stable.
Qed.

(** The round trip under the two assumptions on the formatter: for a
    text [t] that [to_xyz] has written for a geometry with element symbols
    and a title without a dot, [from_xyz t] succeeds, writing it again
    with [to_xyz] and reading that succeeds too, and the coordinates of
    the two geometries are equal.  What the assumptions leave to prove is
    the part of the scan: one record is read back from each line, in
    order, named by the last character of its symbol. *)
Lemma xyz_round_trip (g : Geometry) (title : string) :
  forallb (fun el => is_symbol (name el)) (elements g) = true →
  all_chars not_dot title = true →
  ∃ g1 g2,
    from_xyz float (to_xyz g title) = Return g1
    ∧ from_xyz float (to_xyz g1 "unnamed") = Return g2
    ∧ coordinates g2 = coordinates g1.
Proof.
  intros Hg Ht.
  exists (cls (map reread (elements g))),
         (cls (map reread (map reread (elements g)))).
  split; [by apply from_xyz_to_xyz|]. split.
  - rewrite from_xyz_to_xyz; [done| |done]. by apply reread_symbols.
  - unfold coordinates. cbn [elements cls]. rewrite !map_map.
    apply map_ext. intros el. by rewrite reread_idem.
Qed.

End Writing.

(** ** Floats kept as their text

    An instance for the examples: a float is the literal that was read,
    and it is printed as that literal. *)

Definition text_format (v : string) : string :=
  if float_literal v then v else "0.0".

Lemma text_format_literal (v : string) : float_literal (text_format v) = true.
Proof. unfold text_format. by destruct (float_literal v) eqn:Hv. Qed.

Lemma text_format_stable (v : string) :
  id (text_format (id (text_format v))) = id (text_format v).
Proof.
  unfold id. unfold text_format at 1. by rewrite text_format_literal.
Qed.

Lemma from_xyz_without_newline_witness :
  from_xyz id "H 0.0 0.0 0.0" = Return (cls [])
  ∧ elements (cls (F:=string) []) = [].
Proof. apply (from_xyz_without_newline id "H 0.0 0.0 0.0"). reflexivity. Defined.

Lemma from_xyz_count_mismatch_witness :
  from_xyz id "3
title
H 0.0 0.0 0.0
" = Raise AssertionError.
Proof.
  apply (proj1 (from_xyz_count_mismatch id text_format) _ 3%N).
  - reflexivity.
  - vm_compute. lia.
  - vm_compute. discriminate.
Defined.

(** C5 does not hold as stated: the text declares two atoms and has one
    coordinate line, which holds two records; [from_xyz] raises nothing
    and returns the two atoms. *)
Lemma from_xyz_records_on_one_line_counterexample :
  let xyz := "2
title
H 0.0 0.0 0.0 H 0.0 0.0 0.74
" in
  declared_atoms xyz = Some 2%N
  ∧ coordinate_lines xyz = ["H 0.0 0.0 0.0 H 0.0 0.0 0.74"]
  ∧ from_xyz id xyz
    = Return (cls [ {| name := "H"; x := "0.0"; y := "0.0"; z := "0.0" |};
                    {| name := "H"; x := "0.0"; y := "0.0"; z := "0.74" |} ]).
Proof. vm_compute. done. Qed.

(** The scan counts the records where it finds them: two records on one
    line are two records. *)
Example parsed_records_on_one_line :
  parsed_records "2
title
H 0.0 0.0 0.0 H 0.0 0.0 0.74
" = [["H"; "0.0"; "0.0"; "0.0"]; ["H"; "0.0"; "0.0"; "0.74"]].
Proof. reflexivity. Qed.

Lemma from_xyz_one_character_names_witness :
  ∃ g, from_xyz id "2
salt
He 0.0 0.0 0.0
Cl 0.0 0.0 1.5
" = Return g
       ∧ charge g = None
       ∧ map name (elements g) = ["e"; "l"].
Proof.
  apply (proj2 (from_xyz_one_character_names id) "salt"
           [("He", "0.0", "0.0", "0.0"); ("Cl", "0.0", "0.0", "1.5")]).
  - reflexivity.
  - reflexivity.
Defined.

Definition helium_hydride : Geometry (F:=string) :=
  {| elements := [ {| name := "He"; x := "0.0"; y := "0.0"; z := "0.0" |};
                   {| name := "H"; x := "0.0"; y := "0.0"; z := "-.77" |} ];
     charge := Some 1%Z |}.

Lemma xyz_round_trip_witness :
  ∃ g1 g2,
    from_xyz id (to_xyz text_format helium_hydride "HeH+") = Return g1
    ∧ from_xyz id (to_xyz text_format g1 "unnamed") = Return g2
    ∧ coordinates g2 = coordinates g1.
Proof.
  apply (xyz_round_trip id text_format text_format_literal
           text_format_stable helium_hydride "HeH+").
  - reflexivity.
  - reflexivity.
Defined.

Example to_xyz_helium_hydride :
  to_xyz text_format helium_hydride "HeH+" = "2
HeH+
He 0.0 0.0 0.0
H 0.0 0.0 -.77
".
Proof. reflexivity. Qed.

Example from_xyz_h2 :
  from_xyz id "2
title
H 0.0 0.0 0.0
H 0.0 0.0 0.74
"
  = Return (cls [ {| name := "H"; x := "0.0"; y := "0.0"; z := "0.0" |};
                  {| name := "H"; x := "0.0"; y := "0.0"; z := "0.74" |} ]).
Proof. reflexivity. Qed.

(** ** Further facts about [from_xyz] *)

Lemma dot_first_no_dot (t : string) :
  all_chars not_dot t = true → dot_first t = false.
Proof.
  induction t as [|a t IH]; [done|]. cbn [all_chars dot_first].
  intros [Ha Ht]%andb_prop. unfold not_dot in Ha.
  apply negb_true_iff in Ha as ->. rewrite (IH Ht). by destruct (is_LF a).
Qed.

(** The scan finds nothing in a text without a dot. *)
Lemma findall_no_dot (t : string) :
  all_chars not_dot t = true → findall XYZ_PATTERN t = [].
Proof.
  induction t as [|a t IH]; intros Ht; [done|].
  rewrite findall_no_match.
  - apply IH. simpl in Ht. by apply andb_prop in Ht as [_ Ht].
  - destruct (re_match XYZ_PATTERN (String a t)) as [[gs r]|] eqn:Hm; [|done].
    apply xyz_match_dot_first in Hm. by rewrite (dot_first_no_dot _ Ht) in Hm.
Qed.

Lemma findall_lines_then (recs : list record) (rest : string) :
  forallb record_ok recs = true →
  findall XYZ_PATTERN
    (String.concat "" (map (fun l => l +:+ newline) (map record_line recs))
     +:+ rest)
  = map record_groups recs ++ findall XYZ_PATTERN rest.
Proof.
  induction recs as [|[[[symbol fx] fy] fz] recs IH]; [done|].
  cbn [forallb record_ok]. intros [Hr Hrecs]%andb_prop.
  apply andb_prop in Hr as [[[Hs Hx]%andb_prop Hy]%andb_prop Hz].
  rewrite !map_cons, concat_nosep_cons. cbn [record_line record_groups].
  rewrite !str_app_assoc, findall_line by done. by rewrite IH.
Qed.

Lemma findall_xyz_groups (xyz : string) :
  Forall (fun gs => ∃ c f1 f2 f3,
            gs = [String c ""; f1; f2; f3] ∧ is_word c = true)
         (findall XYZ_PATTERN xyz).
Proof.
  apply findall_from_Forall. intros s gs rest. apply xyz_match_groups.
Qed.

(** A text of white space declares no atom count. *)
Lemma blank_declares_nothing (xyz : string) :
  all_chars is_space xyz = true → declared_atoms xyz = None.
Proof.
  intros Hblank. unfold declared_atoms.
  destruct (re_match NUM_ATOMS_PATTERN xyz) as [[gs rest]|] eqn:Hm; [|done].
  apply re_match_inv in Hm as (m & -> & Hm). simpl in Hm.
  destruct Hm as (w1 & m1 & -> & _ & d & m2 & gs' & -> & _
                  & (d1 & d2 & -> & [Hne Hd] & _) & _).
  rewrite !all_chars_app in Hblank.
  apply andb_prop in Hblank as [[_ [[Hd1 _]%andb_prop _]%andb_prop]%andb_prop _].
  destruct d1 as [|c d1]; [done|]. simpl in Hd, Hd1.
  apply andb_prop in Hd as [Hc _]. apply andb_prop in Hd1 as [Hc' _].
  by rewrite (digit_not_space _ Hc) in Hc'.
Qed.

Section Facts.
Context {F : Type}.
Variable float : string → F.
Variable format_float : F → string.

Lemma mapM_from_tuple_total (matches : list (list string)) :
  Forall (fun gs => ∃ c f1 f2 f3,
            gs = [String c ""; f1; f2; f3] ∧ is_word c = true) matches →
  ∃ els, mapM (from_tuple float) matches = Return els
         ∧ length els = length matches
         ∧ map name els = map (fun gs => nth 0 gs "") matches.
Proof.
  induction 1 as [|gs matches (c & f1 & f2 & f3 & -> & Hc) _
                   (els & Hels & Hlen & Hnames)].
  - by exists [].
  - eexists (_ :: els). cbn [mapM] in *. rewrite Hels. simpl.
    split; [reflexivity|]. split; [by rewrite Hlen | by rewrite Hnames].
Qed.

(** On a text whose declared count [int] accepts, [from_xyz] raises
    nothing but the failure of its assertion: the four-item unpacking of
    [Element.from_tuple] always succeeds on what the scan returns. *)
Theorem from_xyz_fails_only_by_assertion (xyz : string) :
  count_digits xyz ≤ int_max_str_digits →
  (∃ g, from_xyz float xyz = Return g)
  ∨ from_xyz float xyz = Raise AssertionError.
Proof.
  intros _. unfold from_xyz. destruct (negb (contains newline xyz)); [by eauto|].
  destruct (re_match NUM_ATOMS_PATTERN xyz) as [[gs rest]|]; [|by right].
  destruct (N.of_nat _ =? _)%N; [|by right].
  destruct (mapM_from_tuple_total _ (findall_xyz_groups xyz))
    as (els & -> & _). left. by eexists.
Qed.

(** A geometry read from a text with a line feed has exactly the declared
    number of elements, one for each record that the scan has found, named
    in order by the first group of its record. *)
Theorem from_xyz_keeps_declared_count (xyz : string) g :
  from_xyz float xyz = Return g → one_line xyz = false →
  declared_atoms xyz = Some (N.of_nat (length (elements g)))
  ∧ length (elements g) = length (parsed_records xyz)
  ∧ map name (elements g) = map (fun gs => nth 0 gs "") (parsed_records xyz).
Proof.
  unfold from_xyz, declared_atoms, parsed_records.
  rewrite contains_newline. intros Hg Hone. rewrite Hone in Hg.
  simpl in Hg.
  destruct (re_match NUM_ATOMS_PATTERN xyz) as [[gs rest]|]; [|done].
  destruct (N.of_nat _ =? _)%N eqn:Heq; [|done].
  apply N.eqb_eq in Heq.
  destruct (mapM_from_tuple_total _ (findall_xyz_groups xyz))
    as (els & Hels & Hlen & Hnames).
  rewrite Hels in Hg. injection Hg as <-. cbn [elements cls].
  by rewrite Hlen, Heq.
Qed.

(** White space with a line feed in it is refused, where white space
    without a line feed gives the empty geometry. *)
Theorem from_xyz_blank_with_newline (xyz : string) :
  all_chars is_space xyz = true → one_line xyz = false →
  from_xyz float xyz = Raise AssertionError.
Proof.
  intros Hblank Hnl. apply from_xyz_no_count; [done|].
  by apply blank_declares_nothing.
Qed.

(** A text without any dot holds no record, whatever its lines look like
    (coordinates written as integers are not read): when it declares, in
    a count that [int] accepts, zero atoms the geometry is empty, and when
    it declares more the call raises. *)
Theorem from_xyz_without_dot (xyz : string) (N : N) :
  all_chars not_dot xyz = true → count_digits xyz ≤ int_max_str_digits →
  declared_atoms xyz = Some N →
  from_xyz float xyz
  = if (N =? 0)%N then Return (cls []) else Raise AssertionError.
Proof.
  unfold declared_atoms, from_xyz. intros Hdot _.
  destruct (re_match NUM_ATOMS_PATTERN xyz) as [[gs rest]|] eqn:Hnum; [|done].
  intros [= <-]. rewrite (num_atoms_match_newline _ _ _ Hnum).
  rewrite (findall_no_dot _ Hdot). cbn [negb length N.of_nat].
  rewrite N.eqb_sym. change (N.of_nat 0) with 0%N.
  by destruct (int (nth 0 gs "") =? 0)%N.
Qed.

(** The title line is scanned like every other line: a title that has the
    form of a coordinate line is read as the first atom, so the text is
    accepted when its count is one more than its coordinate lines. *)
Theorem from_xyz_reads_title (r : record) (recs : list record) :
  record_ok r = true → forallb record_ok recs = true →
  from_xyz float
    (xyz_block (pretty (S (length recs))) (record_line r)
       (map record_line recs))
  = Return (cls (record_element float r :: map (record_element float) recs)).
Proof.
  intros Hr Hrecs. unfold from_xyz.
  destruct (pretty_nat_digits (S (length recs))) as [Hd Hne].
  unfold xyz_block at 1. rewrite contains_newline_app. cbn [negb].
  destruct (num_atoms_match (pretty (S (length recs)))
              (record_line r +:+ newline +:+ String.concat ""
                 (map (fun l => l +:+ newline) (map record_line recs)))
              Hne Hd) as [rest' Hnum].
  unfold xyz_block at 1. rewrite Hnum. cbn [nth].
  assert (Hfind : findall XYZ_PATTERN
            (xyz_block (pretty (S (length recs))) (record_line r)
               (map record_line recs))
          = map record_groups (r :: recs)).
  { unfold xyz_block. rewrite findall_dotless by (by apply digits_not_dot).
    pose proof (findall_lines (r :: recs)) as Hall.
    rewrite !map_cons, concat_nosep_cons, str_app_assoc in Hall.
    apply Hall. simpl. by rewrite Hr, Hrecs. }
  rewrite Hfind, length_map. cbn [length].
  rewrite int_pretty, N.eqb_refl.
  by rewrite (mapM_from_tuple_records float (r :: recs)).
Qed.

(** Text after the coordinate lines that has no dot in it (blank lines, a
    comment) changes nothing. *)
Theorem from_xyz_ignores_trailer (title trailer : string)
    (recs : list record) :
  all_chars not_dot title = true → all_chars not_dot trailer = true →
  forallb record_ok recs = true →
  from_xyz float
    (xyz_block (pretty (length recs)) title (map record_line recs)
     +:+ trailer)
  = Return (cls (map (record_element float) recs)).
Proof.
  intros Ht Htr Hrecs. unfold from_xyz, xyz_block.
  destruct (pretty_nat_digits (length recs)) as [Hd Hne].
  rewrite !str_app_assoc. rewrite contains_newline_app. cbn [negb].
  destruct (num_atoms_match (pretty (length recs))
              (title +:+ newline +:+ String.concat ""
                 (map (fun l => l +:+ newline) (map record_line recs))
               +:+ trailer)
              Hne Hd) as [rest' Hnum].
  rewrite Hnum. cbn [nth].
  rewrite (findall_dotless (pretty (length recs)))
    by (by apply digits_not_dot).
  rewrite (findall_dotless title) by done.
  rewrite findall_lines_then by done.
  rewrite (findall_no_dot _ Htr), app_nil_r, length_map.
  rewrite int_pretty, N.eqb_refl.
  by rewrite mapM_from_tuple_records.
Qed.

(** [format_geometry_from_xyz] on a text without a line feed gives the
    empty text, for every separator. *)
Theorem format_geometry_from_xyz_without_newline (xyz line_sep : string) :
  one_line xyz = true →
  format_geometry_from_xyz float format_float xyz line_sep = Return "".
Proof.
  intros Hone. unfold format_geometry_from_xyz, from_xyz.
  by rewrite contains_newline, Hone.
Qed.

End Facts.

Lemma from_xyz_keeps_declared_count_witness :
  declared_atoms "2
title
H 0.0 0.0 0.0
H 0.0 0.0 0.74
" = Some 2%N.
Proof.
  apply (from_xyz_keeps_declared_count id _ _ from_xyz_h2). reflexivity.
Defined.

Lemma from_xyz_blank_with_newline_witness :
  from_xyz id (" " +:+ newline +:+ "  ") = Raise AssertionError.
Proof.
  apply (from_xyz_blank_with_newline id); reflexivity.
Defined.

Lemma from_xyz_without_dot_witness :
  from_xyz id "1
title
H 0 0 1
" = Raise AssertionError.
Proof.
  apply (from_xyz_without_dot id _ 1%N);
    [reflexivity | vm_compute; lia | reflexivity].
Defined.

Lemma from_xyz_fails_only_by_assertion_witness :
  (∃ g, from_xyz id "1
title
He 0.0 0.0 0.0" = Return g)
  ∨ from_xyz id "1
title
He 0.0 0.0 0.0" = Raise AssertionError.
Proof.
  apply (from_xyz_fails_only_by_assertion id). vm_compute. lia.
Defined.

Lemma from_xyz_reads_title_witness :
  from_xyz id "2
H 0.0 0.0 0.0
H 0.0 0.0 0.74
"
  = Return (cls [ {| name := "H"; x := "0.0"; y := "0.0"; z := "0.0" |};
                  {| name := "H"; x := "0.0"; y := "0.0"; z := "0.74" |} ]).
Proof.
  apply (from_xyz_reads_title id ("H", "0.0", "0.0", "0.0")
           [("H", "0.0", "0.0", "0.74")]);
    reflexivity.
Defined.

Lemma from_xyz_ignores_trailer_witness :
  from_xyz id "1
title
H 0.0 0.0 0.74

# end
"
  = Return (cls [ {| name := "H"; x := "0.0"; y := "0.0"; z := "0.74" |} ]).
Proof.
  apply (from_xyz_ignores_trailer id "title" "
# end
" [("H", "0.0", "0.0", "0.74")]);
    reflexivity.
Defined.

Lemma format_geometry_from_xyz_without_newline_witness :
  format_geometry_from_xyz id text_format "3 H 0.0 0.0 0.0" newline
  = Return "".
Proof.
  apply (format_geometry_from_xyz_without_newline id text_format).
  reflexivity.
Defined.

End Geometry.

(** * The OpenMolcas input deck (solvers/util.py, solvers/openmolcas.py) *)

Module Solvers.
Import Re Geometry.

(** ** [str.format] on a template with named fields *)

Inductive piece : Type :=
| Lit (text : string)
| Field (name : string).

Fixpoint lookup_kw (name : string) (kwargs : list (string * string))
  : option string :=
  match kwargs with
  | [] => None
  | (k, v) :: kwargs' =>
      if String.eqb k name then Some v else lookup_kw name kwargs'
  end.

Fixpoint format (template : list piece) (kwargs : list (string * string))
  : Outcome string :=
  match template with
  | [] => Return ""
  | Lit text :: template' =>
      rest ← format template' kwargs; Return (text +:+ rest)
  | Field name :: template' =>
      match lookup_kw name kwargs with
      | Some v => rest ← format template' kwargs; Return (v +:+ rest)
      | None => Raise (KeyError name)
      end
  end.

(** [str.upper] on one character: the small letters, those from 224 to
    254 included, go 32 down; the sharp s 223 becomes two letters.  The
    capitals of the micro sign 181 and of 255 lie above 255: these two are
    kept, and like their capitals they are no letter below 128. *)
Definition upper_char (c : ascii) : string :=
  if between 97 122 c || between 224 246 c || between 248 254 c then
    String (ascii_of_N (code c - 32)) ""
  else if between 223 223 c then "SS"
  else String c "".

(** [str.upper] *)
Fixpoint upper (s : string) : string :=
  match s with
  | "" => ""
  | String c s' => upper_char c +:+ upper s'
  end.

Definition GEOMETRY_LINE_SEP : string := newline +:+ "  ".

Definition OPENMOLCAS_TEMPLATE : list piece :=
  [Lit "
&GATEWAY
Coord
  "; Field "num_atoms"; Lit "
  "; Field "mol_name"; Lit "
  "; Field "geometry"; Lit "
Basis="; Field "basis"; Lit "
Group="; Field "symmetry"; Lit "

&SEWARD
"; Field "integral_keyword"; Lit "

&SCF
Charge="; Field "charge"; Lit "
Spin="; Field "spin"; Lit "
"; Field "rasscf_section"; Lit "
"].

Definition OPENMOLCAS_TEMPLATE_CASSCF : list piece :=
  [Lit "
&RASSCF
  Charge= "; Field "charge"; Lit "
  Nactel  =  "; Field "num_active_el"; Lit "
  Ras2  =  "; Field "num_active_orbitals"; Lit "
  Ciroot  =  "; Field "nroot"; Lit " "; Field "nroot"; Lit " 1
"].

Definition OPEN_MOLCAS_TEMPLATE_FCIDUMP : list piece :=
  [Lit "
&RASSCF
  DMRG
  FCIDUMP
  TYPEINDEX
  Spin="; Field "spin"; Lit "
  Charge="; Field "charge"; Lit "

  RGINPUT
  nsweeps = 5
  max_bond_dimension = 500
  ENDRG
"].

Section Deck.

(** The molecule collaborator and what is read from it.
    [_mol_to_coordinates] is [rdkit_convert._mol_to_coordinates];
    [formatted_num_active_el] is imported from [util.py] and not defined
    in it: it stands for the text that [str.format] prints for its
    result. *)
Context {F Mol Atom : Type}.
Variable format_float : F → string.
Variable GetAtoms : Mol → list Atom.
Variable GetFormalCharge : Mol → Z.
Variable _mol_to_coordinates : Mol → nat → list (string * F * F * F).
Variable formatted_num_active_el : Mol → option Z → string.

(** [Geometry.from_mol] *)
Definition from_mol (mol : Mol) (num_confs : nat) : Geometry :=
  let coordinates := _mol_to_coordinates mol num_confs in
  let charge := GetFormalCharge mol in
  {| elements :=
       map (fun '(name, x, y, z) => {| name := name; x := x; y := y; z := z |})
           coordinates;
     charge := Some charge |}.

(** [format_geometry_from_mol] *)
Definition format_geometry_from_mol (mol : Mol) (line_sep : string) : string :=
  let g := from_mol mol 10 in
  format_geometry format_float g line_sep.

(** [num_atoms_from_mol] *)
Definition num_atoms_from_mol (mol : Mol) : nat := length (GetAtoms mol).

(** The [geometry] argument: [None], a text, or a [Geometry]. *)
Inductive GeometryArg : Type :=
| GeometryStr (text : string)
| GeometryObj (g : Geometry (F:=F)).

Definition IGNORING_MOL : string :=
  "Ignoring mol and using specified geometry string instead.".

(** [formatted_geometry_str]: the text, and the warnings issued. *)
Definition formatted_geometry_str (mol : Mol) (geometry : option GeometryArg)
    (line_sep : string) : string * list string :=
  match geometry with
  | None => (format_geometry_from_mol mol line_sep, [])
  | Some given =>
      let warned := [IGNORING_MOL] in
      match given with
      | GeometryObj g => (format_geometry format_float g line_sep, warned)
      | GeometryStr text => (text, warned)
      end
  end.

(** [create_input_deck]: the deck (or the exception of [str.format]) and
    the warnings issued. *)
Definition create_input_deck (mol : Mol) (mol_name : string)
    (geometry : option GeometryArg) (charge : option Z) (spin : string)
    (basis symmetry integral_keyword method : string)
    (get_broombridge : bool) (num_active_el : option Z)
    (num_active_orbitals ci_root : Z) : Outcome string * list string :=
  let '(formatted_geometry, warned) :=
    formatted_geometry_str mol geometry GEOMETRY_LINE_SEP in
  let num_atoms :=
    match geometry with
    | Some (GeometryObj g) => length (elements g)
    | _ => num_atoms_from_mol mol
    end in
  let charge :=
    match charge with
    | Some c => c
    | None => GetFormalCharge mol
    end in
  let rasscf_section :=
    if String.eqb (upper method) "CASSCF" && negb get_broombridge then
      let num_active_el := formatted_num_active_el mol num_active_el in
      format OPENMOLCAS_TEMPLATE_CASSCF
        [("charge", pretty charge); ("num_active_el", num_active_el);
         ("num_active_orbitals", pretty num_active_orbitals);
         ("nroot", pretty ci_root)]
    else if get_broombridge then
      format OPEN_MOLCAS_TEMPLATE_FCIDUMP
        [("spin", spin); ("charge", pretty charge)]
    else Return "" in
  (rasscf_section ← rasscf_section;
   format OPENMOLCAS_TEMPLATE
     [("num_atoms", pretty num_atoms); ("mol_name", mol_name);
      ("geometry", formatted_geometry); ("basis", basis);
      ("symmetry", symmetry); ("integral_keyword", integral_keyword);
      ("charge", pretty charge); ("spin", spin);
      ("rasscf_section", rasscf_section)],
   warned).

(** ** The texts of the deck

    The header with its fields filled in, and the two RASSCF sections. *)

Definition GATEWAY_SEWARD_SCF
    (num_atoms mol_name geometry basis symmetry integral_keyword charge
     spin : string) : string :=
  "
&GATEWAY
Coord
  " +:+ num_atoms +:+ "
  " +:+ mol_name +:+ "
  " +:+ geometry +:+ "
Basis=" +:+ basis +:+ "
Group=" +:+ symmetry +:+ "

&SEWARD
" +:+ integral_keyword +:+ "

&SCF
Charge=" +:+ charge +:+ "
Spin=" +:+ spin +:+ "
".

Definition CASSCF_SECTION
    (charge num_active_el num_active_orbitals nroot : string) : string :=
  "
&RASSCF
  Charge= " +:+ charge +:+ "
  Nactel  =  " +:+ num_active_el +:+ "
  Ras2  =  " +:+ num_active_orbitals +:+ "
  Ciroot  =  " +:+ nroot +:+ " " +:+ nroot +:+ " 1
".

Definition FCIDUMP_SECTION (spin charge : string) : string :=
  "
&RASSCF
  DMRG
  FCIDUMP
  TYPEINDEX
  Spin=" +:+ spin +:+ "
  Charge=" +:+ charge +:+ "

  RGINPUT
  nsweeps = 5
  max_bond_dimension = 500
  ENDRG
".

(** What [create_input_deck] resolves before it fills the template. *)
Definition resolved_geometry (mol : Mol) (geometry : option GeometryArg)
  : string :=
  match geometry with
  | None => format_geometry_from_mol mol GEOMETRY_LINE_SEP
  | Some (GeometryObj g) => format_geometry format_float g GEOMETRY_LINE_SEP
  | Some (GeometryStr text) => text
  end.

Definition resolved_num_atoms (mol : Mol) (geometry : option GeometryArg)
  : nat :=
  match geometry with
  | Some (GeometryObj g) => length (elements g)
  | _ => num_atoms_from_mol mol
  end.

Definition resolved_charge (mol : Mol) (charge : option Z) : Z :=
  match charge with
  | Some c => c
  | None => GetFormalCharge mol
  end.

Definition deck_header (mol : Mol) (mol_name : string)
    (geometry : option GeometryArg) (charge : option Z)
    (spin basis symmetry integral_keyword : string) : string :=
  GATEWAY_SEWARD_SCF (pretty (resolved_num_atoms mol geometry)) mol_name
    (resolved_geometry mol geometry) basis symmetry integral_keyword
    (pretty (resolved_charge mol charge)) spin.

Lemma fill_template
    (num_atoms mol_name geometry basis symmetry integral_keyword charge spin
     rasscf_section : string) :
  format OPENMOLCAS_TEMPLATE
    [("num_atoms", num_atoms); ("mol_name", mol_name);
     ("geometry", geometry); ("basis", basis); ("symmetry", symmetry);
     ("integral_keyword", integral_keyword); ("charge", charge);
     ("spin", spin); ("rasscf_section", rasscf_section)]
  = Return (GATEWAY_SEWARD_SCF num_atoms mol_name geometry basis symmetry
              integral_keyword charge spin
            +:+ rasscf_section +:+ newline).
Proof.
  unfold GATEWAY_SEWARD_SCF. rewrite !str_app_assoc. reflexivity.
Qed.

Lemma fill_casscf (charge num_active_el num_active_orbitals nroot : string) :
  format OPENMOLCAS_TEMPLATE_CASSCF
    [("charge", charge); ("num_active_el", num_active_el);
     ("num_active_orbitals", num_active_orbitals); ("nroot", nroot)]
  = Return (CASSCF_SECTION charge num_active_el num_active_orbitals nroot).
Proof. unfold CASSCF_SECTION. rewrite ?str_app_nil_r. reflexivity. Qed.

Lemma fill_fcidump (spin charge : string) :
  format OPEN_MOLCAS_TEMPLATE_FCIDUMP [("spin", spin); ("charge", charge)]
  = Return (FCIDUMP_SECTION spin charge).
Proof. unfold FCIDUMP_SECTION. rewrite ?str_app_nil_r. reflexivity. Qed.

(** The two RASSCF sections are different texts, whatever fills them. *)
Lemma casscf_not_fcidump (c1 a o r s c2 : string) :
  CASSCF_SECTION c1 a o r ≠ FCIDUMP_SECTION s c2.
Proof. unfold CASSCF_SECTION, FCIDUMP_SECTION. simpl. discriminate. Qed.

Lemma create_input_deck_unfold (mol : Mol) (mol_name : string)
    (geometry : option GeometryArg) (charge : option Z)
    (spin basis symmetry integral_keyword method : string)
    (get_broombridge : bool) (num_active_el : option Z)
    (num_active_orbitals ci_root : Z) :
  create_input_deck mol mol_name geometry charge spin basis symmetry
    integral_keyword method get_broombridge num_active_el
    num_active_orbitals ci_root
  = (Return
       (deck_header mol mol_name geometry charge spin basis symmetry
          integral_keyword
        +:+ (if String.eqb (upper method) "CASSCF" && negb get_broombridge
             then CASSCF_SECTION (pretty (resolved_charge mol charge))
                    (formatted_num_active_el mol num_active_el)
                    (pretty num_active_orbitals) (pretty ci_root)
             else if get_broombridge
             then FCIDUMP_SECTION spin (pretty (resolved_charge mol charge))
             else "")
        +:+ newline),
     match geometry with
     | Some _ => [IGNORING_MOL]
     | None => []
     end).
Proof.
  unfold create_input_deck, deck_header.
  assert (Hgeo : formatted_geometry_str mol geometry GEOMETRY_LINE_SEP
                 = (resolved_geometry mol geometry,
                    match geometry with
                    | Some _ => [IGNORING_MOL]
                    | None => []
                    end)).
  { by destruct geometry as [[text|g]|]. }
  rewrite Hgeo. fold (resolved_num_atoms mol geometry).
  fold (resolved_charge mol charge). f_equal.
  rewrite fill_casscf, fill_fcidump.
  destruct (String.eqb (upper method) "CASSCF" && negb get_broombridge);
    [|destruct get_broombridge]; apply fill_template.
Qed.

(** ** The RASSCF section *)

(** C8: [create_input_deck] ends in exactly one of three ways.  When
    [method] is CASSCF in any letter case and [get_broombridge] is not
    set, the deck is the GATEWAY/SEWARD/SCF header followed by the CASSCF
    section; otherwise, when [get_broombridge] is set, it is the header
    followed by the FCIDUMP section; otherwise it is the header alone.
    The header does not depend on [method] or [get_broombridge], and the
    two sections are different texts. *)
Theorem create_input_deck_rasscf_section (mol : Mol) (mol_name : string)
    (geometry : option GeometryArg) (charge : option Z)
    (spin basis symmetry integral_keyword method : string)
    (get_broombridge : bool) (num_active_el : option Z)
    (num_active_orbitals ci_root : Z) :
  let deck :=
    (create_input_deck mol mol_name geometry charge spin basis symmetry
       integral_keyword method get_broombridge num_active_el
       num_active_orbitals ci_root).1 in
  let header :=
    deck_header mol mol_name geometry charge spin basis symmetry
      integral_keyword in
  let casscf :=
    CASSCF_SECTION (pretty (resolved_charge mol charge))
      (formatted_num_active_el mol num_active_el)
      (pretty num_active_orbitals) (pretty ci_root) in
  let fcidump :=
    FCIDUMP_SECTION spin (pretty (resolved_charge mol charge)) in
  (upper method = "CASSCF" ∧ get_broombridge = false →
   deck = Return (header +:+ casscf +:+ newline))
  ∧ (¬ (upper method = "CASSCF" ∧ get_broombridge = false) →
     get_broombridge = true →
     deck = Return (header +:+ fcidump +:+ newline))
  ∧ (¬ (upper method = "CASSCF" ∧ get_broombridge = false) →
     get_broombridge = false →
     deck = Return (header +:+ newline))
  ∧ casscf ≠ fcidump ∧ casscf ≠ "" ∧ fcidump ≠ "".
Proof.
  intros deck header casscf fcidump. unfold deck.
  rewrite create_input_deck_unfold. cbn [fst].
  fold header casscf fcidump.
  split; [|split; [|split; [|split; [|split]]]].
  - intros [Hm ->]. by rewrite Hm.
  - intros Hnot ->. simpl. by rewrite andb_false_r.
  - intros Hnot ->. destruct (String.eqb_spec (upper method) "CASSCF") as [Hm|Hm].
    + by destruct Hnot.
    + done.
  - apply casscf_not_fcidump.
  - done.
  - done.
Qed.

(** ** The geometry, the atom count and the charge *)

(** C9, as the code has it: when [create_input_deck] is given a molecule
    and an explicit geometry, it issues the warning and goes on; the
    geometry text of the deck is the explicit geometry (formatted, when it
    is a [Geometry]); the atom count is the length of the explicit
    [Geometry], and the atom count of the molecule when the geometry is a
    text; the charge is the [charge] argument when that is given and the
    formal charge of the molecule otherwise. *)
Theorem create_input_deck_explicit_geometry (mol : Mol) (mol_name : string)
    (given : GeometryArg) (charge : option Z)
    (spin basis symmetry integral_keyword method : string)
    (get_broombridge : bool) (num_active_el : option Z)
    (num_active_orbitals ci_root : Z) :
  ∃ rasscf_section,
    create_input_deck mol mol_name (Some given) charge spin basis symmetry
      integral_keyword method get_broombridge num_active_el
      num_active_orbitals ci_root
    = (Return
         (GATEWAY_SEWARD_SCF
            (pretty (match given with
                     | GeometryObj g => length (elements g)
                     | GeometryStr _ => length (GetAtoms mol)
                     end))
            mol_name
            (match given with
             | GeometryObj g =>
                 String.concat GEOMETRY_LINE_SEP
                   (map (Element_to_xyz format_float) (elements g))
             | GeometryStr text => text
             end)
            basis symmetry integral_keyword
            (pretty (match charge with
                     | Some c => c
                     | None => GetFormalCharge mol
                     end))
            spin
          +:+ rasscf_section +:+ newline),
       ["Ignoring mol and using specified geometry string instead."]).
Proof.
  eexists. rewrite create_input_deck_unfold. unfold deck_header.
  by destruct given.
Qed.

(** ** Further facts about the deck *)

(** [Geometry.from_mol] keeps what the conformer search returned: the
    coordinates of the geometry are the tuples of [_mol_to_coordinates], in
    their order, and the charge is the formal charge of the molecule. *)
Theorem from_mol_coordinates (mol : Mol) (num_confs : nat) :
  coordinates (from_mol mol num_confs) = _mol_to_coordinates mol num_confs
  ∧ charge (from_mol mol num_confs) = Some (GetFormalCharge mol)
  ∧ length (elements (from_mol mol num_confs))
    = length (_mol_to_coordinates mol num_confs).
Proof.
  unfold from_mol, coordinates. cbn [elements charge].
  split; [|split; [done | by rewrite length_map]].
  rewrite map_map. rewrite <- (map_id (_mol_to_coordinates mol num_confs)) at 2.
  apply map_ext. by intros [[[n a] b] c].
Qed.

Lemma upper_char_idem (c : ascii) : upper (upper_char c) = upper_char c.
Proof. destruct c as [[] [] [] [] [] [] [] []]; reflexivity. Qed.

Lemma upper_app (s1 s2 : string) : upper (s1 +:+ s2) = upper s1 +:+ upper s2.
Proof.
  induction s1 as [|c s1 IH]; [done|]. cbn [String.append upper].
  by rewrite IH, str_app_assoc.
Qed.

Lemma upper_idem (s : string) : upper (upper s) = upper s.
Proof.
  induction s as [|c s IH]; [done|]. cbn [upper].
  by rewrite upper_app, upper_char_idem, IH.
Qed.

(** The letter case of [method] does not matter: the call with [method]
    and the call with [method.upper()] are the same. *)
Theorem create_input_deck_method_case (mol : Mol) (mol_name : string)
    (geometry : option GeometryArg) (charge : option Z)
    (spin basis symmetry integral_keyword method : string)
    (get_broombridge : bool) (num_active_el : option Z)
    (num_active_orbitals ci_root : Z) :
  create_input_deck mol mol_name geometry charge spin basis symmetry
    integral_keyword method get_broombridge num_active_el
    num_active_orbitals ci_root
  = create_input_deck mol mol_name geometry charge spin basis symmetry
      integral_keyword (upper method) get_broombridge num_active_el
      num_active_orbitals ci_root.
Proof. by rewrite !create_input_deck_unfold, upper_idem. Qed.

(** With [get_broombridge] set, the deck depends neither on [method] nor
    on the three CASSCF parameters; and wherever the CASSCF section is not
    chosen, the three CASSCF parameters are not read. *)
Theorem create_input_deck_unused_arguments (mol : Mol) (mol_name : string)
    (geometry : option GeometryArg) (charge : option Z)
    (spin basis symmetry integral_keyword : string)
    (method method' : string) (get_broombridge : bool)
    (num_active_el num_active_el' : option Z)
    (num_active_orbitals num_active_orbitals' ci_root ci_root' : Z) :
  (get_broombridge = true →
   create_input_deck mol mol_name geometry charge spin basis symmetry
     integral_keyword method get_broombridge num_active_el
     num_active_orbitals ci_root
   = create_input_deck mol mol_name geometry charge spin basis symmetry
       integral_keyword method' get_broombridge num_active_el'
       num_active_orbitals' ci_root')
  ∧ (upper method ≠ "CASSCF" →
     create_input_deck mol mol_name geometry charge spin basis symmetry
       integral_keyword method get_broombridge num_active_el
       num_active_orbitals ci_root
     = create_input_deck mol mol_name geometry charge spin basis symmetry
         integral_keyword method get_broombridge num_active_el'
         num_active_orbitals' ci_root').
Proof.
  rewrite !create_input_deck_unfold. split.
  - intros ->. by rewrite !andb_false_r.
  - intros Hm. apply String.eqb_neq in Hm. by rewrite Hm.
Qed.

(** Without an explicit geometry nothing is warned about; the atom count
    is the number of atoms of the molecule and the geometry text is made
    of the elements of [Geometry.from_mol] with ten conformers, joined by
    a line feed and two spaces. *)
Theorem create_input_deck_from_mol (mol : Mol) (mol_name : string)
    (charge : option Z)
    (spin basis symmetry integral_keyword method : string)
    (get_broombridge : bool) (num_active_el : option Z)
    (num_active_orbitals ci_root : Z) :
  ∃ rasscf_section,
    create_input_deck mol mol_name None charge spin basis symmetry
      integral_keyword method get_broombridge num_active_el
      num_active_orbitals ci_root
    = (Return
         (GATEWAY_SEWARD_SCF (pretty (length (GetAtoms mol))) mol_name
            (String.concat (newline +:+ "  ")
               (map (Element_to_xyz format_float)
                    (elements (from_mol mol 10))))
            basis symmetry integral_keyword
            (pretty (match charge with
                     | Some c => c
                     | None => GetFormalCharge mol
                     end))
            spin
          +:+ rasscf_section +:+ newline),
       []).
Proof. eexists. by rewrite create_input_deck_unfold. Qed.

End Deck.

(** ** Electrons *)

Section Electrons.
Context {Mol Atom : Type}.
Variable GetAtoms : Mol → list Atom.
Variable GetAtomicNum : Atom → Z.

(** [num_electrons] *)
Definition num_electrons (mol : Mol) : Z :=
  foldr Z.add 0%Z (map GetAtomicNum (GetAtoms mol)).

(** A molecule whose atoms all have an atomic number of at least one has
    at least as many electrons as atoms; a molecule without atoms has
    none. *)
Theorem num_electrons_at_least_atoms (mol : Mol) :
  (Forall (fun atom => (1 ≤ GetAtomicNum atom)%Z) (GetAtoms mol) →
   (Z.of_nat (num_atoms_from_mol GetAtoms mol) ≤ num_electrons mol)%Z)
  ∧ (GetAtoms mol = [] → num_electrons mol = 0%Z).
Proof.
  unfold num_electrons, num_atoms_from_mol. split.
  - induction 1 as [|atom atoms Hatom _ IH]; simpl; lia.
  - by intros ->.
Qed.

End Electrons.

(** ** A molecule for the examples

    A molecule is the list of its atom names and its formal charge; every
    atom sits at the origin, floats are kept as their text. *)
Record ToyMol : Type := {
  toy_atoms : list string;
  toy_charge : Z
}.

Definition toy_coordinates (mol : ToyMol) (num_confs : nat)
  : list (string * string * string * string) :=
  map (fun a => (a, "0.0", "0.0", "0.0")) (toy_atoms mol).

Definition toy_num_active_el (mol : ToyMol) (num_active_el : option Z)
  : string :=
  match num_active_el with
  | Some n => pretty n
  | None => pretty (Z.of_nat (length (toy_atoms mol)))
  end.

Definition toy_deck :=
  create_input_deck (F:=string) id toy_atoms toy_charge toy_coordinates
    toy_num_active_el.

Definition hydrogen : ToyMol := {| toy_atoms := ["H"]; toy_charge := 0 |}.

Definition cation : Geometry (F:=string) :=
  {| elements := [ {| name := "H"; x := "0.0"; y := "0.0"; z := "0.74" |} ];
     charge := Some 1%Z |}.

Lemma create_input_deck_rasscf_section_witness :
  (toy_deck hydrogen "h" None None "1" "ANO-RCC-MB" "C1" "" "casscf" false
     None 0%Z 1%Z).1
  = Return (GATEWAY_SEWARD_SCF "1" "h" "H 0.0 0.0 0.0" "ANO-RCC-MB" "C1" ""
              "0" "1"
            +:+ CASSCF_SECTION "0" "1" "0" "1" +:+ newline).
Proof.
  apply (proj1 (create_input_deck_rasscf_section (F:=string) id toy_atoms
           toy_charge toy_coordinates toy_num_active_el hydrogen "h" None
           None "1" "ANO-RCC-MB" "C1" "" "casscf" false None 0%Z 1%Z)).
  split; reflexivity.
Defined.

(** C9 does not hold as stated: with an explicit geometry whose charge is
    1 and no [charge] argument, the deck carries the formal charge 0 of
    the molecule. *)
Lemma create_input_deck_charge_counterexample :
  charge cation = Some 1%Z
  ∧ (toy_deck hydrogen "h" (Some (GeometryObj cation)) None "1"
       "ANO-RCC-MB" "C1" "" "SCF" false None 0%Z 1%Z)
    = (Return (GATEWAY_SEWARD_SCF "1" "h" "H 0.0 0.0 0.74" "ANO-RCC-MB"
                 "C1" "" "0" "1" +:+ newline),
       [IGNORING_MOL])
  ∧ (toy_deck hydrogen "h" (Some (GeometryObj cation)) None "1"
       "ANO-RCC-MB" "C1" "" "SCF" false None 0%Z 1%Z).1
    ≠ Return (GATEWAY_SEWARD_SCF "1" "h" "H 0.0 0.0 0.74" "ANO-RCC-MB"
                "C1" "" "1" "1" +:+ newline).
Proof. split; [done|]. split; [by vm_compute | vm_compute; discriminate]. Qed.

Lemma create_input_deck_unused_arguments_witness :
  toy_deck hydrogen "h" None None "1" "ANO-RCC-MB" "C1" "" "CASSCF" true
    None 0%Z 1%Z
  = toy_deck hydrogen "h" None None "1" "ANO-RCC-MB" "C1" "" "SCF" true
      (Some 2%Z) 4%Z 3%Z.
Proof.
  apply (proj1 (create_input_deck_unused_arguments (F:=string) id toy_atoms
                  toy_charge toy_coordinates toy_num_active_el hydrogen "h"
                  None None "1" "ANO-RCC-MB" "C1" "" "CASSCF" "SCF" true
                  None (Some 2%Z) 0%Z 4%Z 1%Z 3%Z)).
  reflexivity.
Defined.

Definition toy_atomic_number (a : string) : Z :=
  if String.eqb a "H" then 1%Z else 6%Z.

Lemma num_electrons_at_least_atoms_witness :
  (Z.of_nat (num_atoms_from_mol toy_atoms
               {| toy_atoms := ["C"; "H"; "H"]; toy_charge := 0 |})
   ≤ num_electrons toy_atoms toy_atomic_number
       {| toy_atoms := ["C"; "H"; "H"]; toy_charge := 0 |})%Z.
Proof.
  apply (proj1 (num_electrons_at_least_atoms toy_atoms toy_atomic_number
                  {| toy_atoms := ["C"; "H"; "H"]; toy_charge := 0 |})).
  repeat constructor; vm_compute; discriminate.
Defined.

End Solvers.
